(** * Knowledge-graph builder for a static HTML corpus

    A shallow embedding of the two batch pipelines of the repository:
    - [main.py]: the metadata scanner ([get_relative_path],
      [scan_directory]);
    - [script.py]: the graph builder ([KnowledgeGraphGenerator] with
      [get_node_id], [normalize_path], [extract_links_from_html],
      [add_metadata_to_graph], [add_links_to_graph], [export_graph]).

    Python [str] values are [string]s, [None] is the [None] of [option],
    Python [dict]s are insertion-ordered association lists, and the
    [networkx.DiGraph] is its adjacency dictionary.  HTML parsing, CSV/JSON
    text encoding and the directory walk are external collaborators and
    enter as data (anchor lists, row lists, walk results). *)

From Stdlib Require Import String Ascii List Bool Arith ZArith Lia.
From Stdlib Require Import DecimalString.
Import ListNotations.
Open Scope string_scope.

(* ------------------------------------------------------------------ *)
(** ** Python string primitives *)

Module PyStr.

(** [s.split(sep)] for a one-character separator: never empty, the
    empty string splits into one empty piece. *)
Fixpoint split (sep : ascii) (s : string) : list string :=
  match s with
  | EmptyString => [EmptyString]
  | String c s' =>
      if Ascii.eqb c sep then EmptyString :: split sep s'
      else match split sep s' with
           | [] => [String c EmptyString]
           | p :: ps => String c p :: ps
           end
  end.

(** [s.startswith(p)] *)
Definition startswith (p s : string) : bool := String.prefix p s.

(** [s.startswith((p1, ..., pn))] *)
Definition startswith_any (ps : list string) (s : string) : bool :=
  existsb (fun p => startswith p s) ps.

(** [s[n:]] for [0 <= n] *)
Fixpoint drop (n : nat) (s : string) : string :=
  match n, s with
  | O, _ => s
  | S _, EmptyString => EmptyString
  | S n', String _ s' => drop n' s'
  end.

(** [s[:n]] for [0 <= n] *)
Fixpoint take (n : nat) (s : string) : string :=
  match n, s with
  | O, _ => EmptyString
  | S _, EmptyString => EmptyString
  | S n', String c s' => String c (take n' s')
  end.

(** [s.endswith(p)] *)
Definition endswith (p s : string) : bool :=
  (String.length p <=? String.length s)%nat
  && String.eqb (drop (String.length s - String.length p) s) p.

(** [s.rfind(c)]: index of the last occurrence, [-1] when absent. *)
Fixpoint rfind_from (c : ascii) (s : string) (i last : Z) : Z :=
  match s with
  | EmptyString => last
  | String a s' =>
      rfind_from c s' (i + 1)%Z (if Ascii.eqb a c then i else last)
  end.

Definition rfind (c : ascii) (s : string) : Z := rfind_from c s 0%Z (-1)%Z.

(** [sep.join(parts)] *)
Definition join (sep : string) (parts : list string) : string :=
  String.concat sep parts.

(** ASCII part of [s.lower()] *)
Definition lower_ascii (c : ascii) : ascii :=
  let n := nat_of_ascii c in
  if ((65 <=? n) && (n <=? 90))%nat then ascii_of_nat (n + 32) else c.

Fixpoint lower (s : string) : string :=
  match s with
  | EmptyString => EmptyString
  | String c s' => String (lower_ascii c) (lower s')
  end.

(** [l[:-n]]: Python reads [-0] as [0], so [l[:-0]] is empty. *)
Definition slice_to_neg {A} (l : list A) (n : nat) : list A :=
  if (n =? 0)%nat then [] else firstn (List.length l - n) l.

End PyStr.

(* ------------------------------------------------------------------ *)
(** ** [os.path] on POSIX *)

Module PosixPath.
Import PyStr.

Fixpoint all_dots (s : string) : bool :=
  match s with
  | EmptyString => true
  | String c s' => Ascii.eqb c "."%char && all_dots s'
  end.

(** [os.path.splitext(p)]: the extension starts at the last dot of the
    last component, leading dots of that component not counting. The
    library's loop over [filenameIndex] looks for a character other than
    a dot between the last separator and the last dot. *)
Definition splitext (p : string) : string * string :=
  let sepIndex := rfind "/"%char p in
  let dotIndex := rfind "."%char p in
  if (sepIndex <? dotIndex)%Z then
    let filenameIndex := Z.to_nat (sepIndex + 1) in
    let d := Z.to_nat dotIndex in
    if all_dots (take (d - filenameIndex) (drop filenameIndex p))
    then (p, EmptyString)
    else (take d p, drop d p)
  else (p, EmptyString).

(** One step of [os.path.join(a, *p)]. *)
Definition join2 (path b : string) : string :=
  if startswith "/" b then b
  else if String.eqb path "" || endswith "/" path then path ++ b
  else path ++ "/" ++ b.

Definition join (a : string) (p : list string) : string :=
  fold_left join2 p a.

End PosixPath.

(* ------------------------------------------------------------------ *)
(** ** [script.py]: link normalizer *)

Module LinkNormalizer.
Import PyStr.

(** [get_node_id] *)
Definition get_node_id (relative_dir filename : string) : string :=
  if String.eqb relative_dir "" then filename
  else relative_dir ++ "/" ++ filename.

Definition rejected_prefixes : list string :=
  ["http://"; "https://"; "mailto:"; "#"; "javascript:"].

(** The [while parts and parts[0] == '..'] loop: counts and pops the
    leading [..] pieces. *)
Fixpoint pop_ascents (parts : list string) (up_count : nat)
  : nat * list string :=
  match parts with
  | [] => (up_count, [])
  | p :: rest =>
      if String.eqb p ".." then pop_ascents rest (S up_count)
      else (up_count, parts)
  end.

(** Steps 2 and 3: fragment, then extension. *)
Definition strip_fragment (href : string) : string :=
  hd "" (split "#"%char href).

Definition strip_extension (href : string) : string :=
  fst (PosixPath.splitext href).

(** The three resolution branches, on the cleaned href. *)
Definition resolve (current_dir href : string) : option string :=
  if startswith "../" href then
    let '(up_count, parts) := pop_ascents (split "/"%char href) 0 in
    let current_parts := split "/"%char current_dir in
    if (up_count <=? List.length current_parts)%nat then
      Some (join "/" (slice_to_neg current_parts up_count ++ parts))
    else None
  else if startswith "./" href then
    Some (PosixPath.join current_dir [drop 2 href])
  else
    Some (PosixPath.join current_dir [href]).

(** [normalize_path]; [None] is Python's [None].  On [str] arguments no
    operation of the body raises, so the [except] branch is dead. *)
Definition normalize_path (current_dir href : string) : option string :=
  if startswith_any rejected_prefixes href then None
  else
    let href := strip_fragment href in
    let href := strip_extension href in
    resolve current_dir href.

End LinkNormalizer.

(* ------------------------------------------------------------------ *)
(** ** Python dictionaries: insertion-ordered, string keys *)

Module PyDict.
Section Dict.
Context {V : Type}.

Definition dict : Type := list (string * V).

(** [d.get(k)] *)
Fixpoint get (k : string) (d : dict) : option V :=
  match d with
  | [] => None
  | (k', v) :: d' => if String.eqb k' k then Some v else get k d'
  end.

(** [k in d] *)
Definition mem (k : string) (d : dict) : bool :=
  match get k d with Some _ => true | None => false end.

(** [d[k] = v]: an existing key keeps its place, a new one goes last. *)
Fixpoint set (k : string) (v : V) (d : dict) : dict :=
  match d with
  | [] => [(k, v)]
  | (k', v') :: d' =>
      if String.eqb k' k then (k', v) :: d' else (k', v') :: set k v d'
  end.

Definition keys (d : dict) : list string := map fst d.
End Dict.
Arguments dict : clear implicits.
End PyDict.

(* ------------------------------------------------------------------ *)
(** ** [networkx.DiGraph], as far as the generator uses it *)

Module NX.
Import PyDict.

(** An edge's attribute dictionary. *)
Definition datadict : Type := dict string.

(** The successor dictionary [_adj]: node -> (neighbour -> attributes).
    [_node] has the same keys in the same order, and [_pred] mirrors
    [_adj]. *)
Definition DiGraph : Type := dict (dict datadict).

Definition empty : DiGraph := [].

(** [G.add_node(n)] with no attributes *)
Definition add_node (G : DiGraph) (n : string) : DiGraph :=
  if mem n G then G else set n [] G.

(** [G.add_edge(u, v, relationship=rel)] *)
Definition add_edge (G : DiGraph) (u v rel : string) : DiGraph :=
  let G := add_node G u in
  let G := add_node G v in
  match get u G with
  | None => G
  | Some nbrs =>
      let dd := match get v nbrs with Some dd => dd | None => [] end in
      let dd := set "relationship" rel dd in
      set u (set v dd nbrs) G
  end.

(** [G.nodes()] *)
Definition nodes (G : DiGraph) : list string := keys G.

(** [G.edges(data=True)] *)
Definition edges (G : DiGraph) : list (string * string * datadict) :=
  flat_map (fun '(n, nbrs) => map (fun '(nbr, dd) => (n, nbr, dd)) nbrs) G.

Definition number_of_nodes (G : DiGraph) : nat := List.length (nodes G).
Definition number_of_edges (G : DiGraph) : nat := List.length (edges G).

(** [G[u][v]], the attribute dictionary of the edge [u -> v]; [None]
    where Python raises [KeyError]. *)
Definition edge_data (G : DiGraph) (u v : string) : option datadict :=
  match get u G with
  | Some nbrs => get v nbrs
  | None => None
  end.

(** Representation invariant of the two dictionary levels: a key occurs
    once. *)
Definition wf (G : DiGraph) : Prop :=
  NoDup (keys G) /\ forall n nbrs, In (n, nbrs) G -> NoDup (keys nbrs).

End NX.

(* ------------------------------------------------------------------ *)
(** ** Shared data: page records and the files of the corpus *)

(** One row of the tabular export. *)
Record PageRecord : Type := mkPageRecord {
  relative_dir : string;
  filename : string;
  keywords : string;
  description : string;
  module_ : string;
  title : string
}.

(** What [extract_links_from_html] sees of a file: either reading or
    parsing raises, or the parser yields the [a] elements that have an
    [href], each with its [href] and its stripped text. *)
Inductive HtmlFile : Type :=
| Unreadable
| Page (anchors : list (string * string)).

(** The corpus on disk: [None] where [os.path.exists] is false. *)
Definition FileSystem : Type := string -> option HtmlFile.

(* ------------------------------------------------------------------ *)
(** ** [script.py]: [KnowledgeGraphGenerator] *)

Module Generator.
Import PyStr PyDict NX LinkNormalizer.

Record Info : Type := mkInfo {
  info_relative_dir : string;
  info_filename : string
}.

Record KnowledgeGraphGenerator : Type := mkGen {
  graph : DiGraph;
  nodes_info : dict Info
}.

(** [__init__] *)
Definition init : KnowledgeGraphGenerator :=
  {| graph := NX.empty; nodes_info := [] |}.

(** [extract_links_from_html], on the parsed file *)
Definition extract_links_from_html (file : HtmlFile) (current_dir : string)
  : list (string * string) :=
  match file with
  | Unreadable => []
  | Page anchors =>
      flat_map
        (fun '(href, link_text) =>
           match normalize_path current_dir href with
           | Some normalized_path =>
               if String.eqb normalized_path "" then []
               else [(normalized_path, link_text)]
           | None => []
           end)
        anchors
  end.

(** The Page Identifier of a record of the export *)
Definition row_id (row : PageRecord) : string :=
  get_node_id (relative_dir row) (filename row).

(** Body of the [for row in reader] loop *)
Definition add_row (self : KnowledgeGraphGenerator) (row : PageRecord)
  : KnowledgeGraphGenerator :=
  let node_id := get_node_id (relative_dir row) (filename row) in
  {| graph := add_node (graph self) node_id;
     nodes_info :=
       set node_id
         {| info_relative_dir := relative_dir row;
            info_filename := filename row |}
         (nodes_info self) |}.

(** [add_metadata_to_graph], on the rows the CSV reader yields *)
Definition add_metadata_to_graph (self : KnowledgeGraphGenerator)
  (rows : list PageRecord) : KnowledgeGraphGenerator :=
  fold_left add_row rows self.

(** Body of the [for target_path, link_text in links] loop *)
Definition add_link (known : dict Info) (node_id : string) (G : DiGraph)
  (link : string * string) : DiGraph :=
  let '(target_path, link_text) := link in
  if mem target_path known then add_edge G node_id target_path link_text
  else G.

(** Body of the [for node_id, info in self.nodes_info.items()] loop *)
Definition add_node_links (fs : FileSystem) (root_dir : string)
  (known : dict Info) (G : DiGraph) (item : string * Info) : DiGraph :=
  let '(node_id, info) := item in
  let html_path :=
    PosixPath.join root_dir
      [info_relative_dir info; info_filename info ++ ".html"] in
  let htm_path :=
    PosixPath.join root_dir
      [info_relative_dir info; info_filename info ++ ".htm"] in
  let file_path :=
    match fs html_path with Some _ => html_path | None => htm_path end in
  let current_dir := info_relative_dir info in
  match fs file_path with
  | Some file =>
      fold_left (add_link known node_id)
        (extract_links_from_html file current_dir) G
  | None => G
  end.

(** [add_links_to_graph] *)
Definition add_links_to_graph (self : KnowledgeGraphGenerator)
  (fs : FileSystem) (root_dir : string) : KnowledgeGraphGenerator :=
  {| graph :=
       fold_left (add_node_links fs root_dir (nodes_info self))
         (nodes_info self) (graph self);
     nodes_info := nodes_info self |}.

Record EdgeObj : Type := mkEdge {
  source : string;
  target : string;
  relationship : string
}.

Record GraphData : Type := mkGraphData {
  gd_nodes : list string;      (* the [id] of each node object *)
  gd_edges : list EdgeObj
}.

(** [export_graph]: the document handed to [json.dump] *)
Definition export_graph (self : KnowledgeGraphGenerator) : GraphData :=
  {| gd_nodes := nodes (graph self);
     gd_edges :=
       map (fun '(s, t, data) =>
              {| source := s; target := t;
                 relationship :=
                   match get "relationship" data with
                   | Some r => r
                   | None => ""
                   end |})
           (edges (graph self)) |}.

(** [build_knowledge_graph]: the exported document and the statistics *)
Definition build_knowledge_graph (fs : FileSystem) (root_dir : string)
  (rows : list PageRecord) : GraphData * (nat * nat) :=
  let generator := init in
  let generator := add_metadata_to_graph generator rows in
  let generator := add_links_to_graph generator fs root_dir in
  (export_graph generator,
   (number_of_nodes (graph generator), number_of_edges (graph generator))).

(** The two mutating operations, for sequences of calls. *)
Inductive Op : Type :=
| AddMetadata (rows : list PageRecord)
| AddLinks (fs : FileSystem) (root_dir : string).

Definition step (self : KnowledgeGraphGenerator) (op : Op)
  : KnowledgeGraphGenerator :=
  match op with
  | AddMetadata rows => add_metadata_to_graph self rows
  | AddLinks fs root_dir => add_links_to_graph self fs root_dir
  end.

Definition run (ops : list Op) (self : KnowledgeGraphGenerator)
  : KnowledgeGraphGenerator :=
  fold_left step ops self.

(** A graph is closed under a set of known identifiers when every known
    identifier is a node and every edge joins two known identifiers. *)
Definition closed (known : dict Info) (G : DiGraph) : Prop :=
  wf G
  /\ (forall k, mem k known = true -> In k (nodes G))
  /\ (forall s t d, In (s, t, d) (edges G) ->
                    mem s known = true /\ mem t known = true).

Definition consistent (self : KnowledgeGraphGenerator) : Prop :=
  NoDup (keys (nodes_info self)) /\ closed (nodes_info self) (graph self).

(** The source file [add_links_to_graph] opens for a node: [.html]
    first, then [.htm]. *)
Definition source_file (fs : FileSystem) (root_dir : string) (info : Info)
  : option HtmlFile :=
  let html_path :=
    PosixPath.join root_dir
      [info_relative_dir info; info_filename info ++ ".html"] in
  let htm_path :=
    PosixPath.join root_dir
      [info_relative_dir info; info_filename info ++ ".htm"] in
  match fs html_path with
  | Some file => Some file
  | None => fs htm_path
  end.

(** The label of the last link to [target] in a page's link list. *)
Fixpoint last_label (target : string) (links : list (string * string))
  : option string :=
  match links with
  | [] => None
  | (t, text) :: rest =>
      match last_label target rest with
      | Some l => Some l
      | None => if String.eqb t target then Some text else None
      end
  end.

End Generator.

(* ------------------------------------------------------------------ *)
(** ** The end-to-end scenario of the specification *)

Module Scenario.
Import Generator.

Definition rows : list PageRecord :=
  [ mkPageRecord "" "index" "" "" "" "Home";
    mkPageRecord "sub" "child" "" "" "" "Child" ].

Definition fs : FileSystem := fun path =>
  if String.eqb path "/site/index.html" then
    Some (Page [("sub/child.html", "Go"); ("https://example.com", "Out");
                ("missing-page.html", "Lost")])
  else if String.eqb path "/site/sub/child.htm" then
    Some (Page [("../index.html", "Back")])
  else None.

(** The same site, the index page linking twice to the child page. *)
Definition fs_twice : FileSystem := fun path =>
  if String.eqb path "/site/index.html" then
    Some (Page [("sub/child.html", "Go"); ("./sub/child.html#top", "Again")])
  else if String.eqb path "/site/sub/child.htm" then
    Some (Page [("../index.html", "Back")])
  else None.

End Scenario.

(* ------------------------------------------------------------------ *)
(** ** [main.py]: metadata scanner *)

Module Scanner.
Import PyStr.

(** *** [pathlib], on the components of resolved absolute paths *)

(** [file.relative_to(root)]: [None] where Python raises [ValueError]. *)
Fixpoint relative_to (file root : list string) : option (list string) :=
  match root, file with
  | [], _ => Some file
  | _ :: _, [] => None
  | r :: root', f :: file' =>
      if String.eqb r f then relative_to file' root' else None
  end.

(** [p.parent] of a relative path *)
Definition parent (parts : list string) : list string := removelast parts.

(** [str(p)] of a relative path: the empty path prints as a dot. *)
Definition path_str (parts : list string) : string :=
  match parts with
  | [] => "."
  | _ => join "/" parts
  end.

Record Metadata : Type := mkMetadata {
  md_keywords : string;
  md_description : string;
  md_module : string;
  md_title : string
}.

(** *** The CSV writer: [delimiter=';'], [quoting=csv.QUOTE_ALL] *)

Definition quotechar : ascii := ascii_of_nat 34.
Definition lineterminator : string :=
  String (ascii_of_nat 13) (String (ascii_of_nat 10) EmptyString).

(** A quote character inside a field is doubled. *)
Fixpoint escape (s : string) : string :=
  match s with
  | EmptyString => EmptyString
  | String c s' =>
      if Ascii.eqb c quotechar then String c (String c (escape s'))
      else String c (escape s')
  end.

Definition quote_field (f : string) : string :=
  String quotechar (escape f ++ String quotechar EmptyString).

Definition writerow (fields : list string) : string :=
  join ";" (map quote_field fields) ++ lineterminator.

Definition fieldnames : list string :=
  ["relative_dir"; "filename"; "keywords"; "description"; "module"; "title"].

Definition record_fields (r : PageRecord) : list string :=
  [relative_dir r; filename r; keywords r; description r; module_ r; title r].

(** [writer.writeheader()]: the one line handed to the file *)
Definition writeheader : string := writerow fieldnames.

(** [writer.writerows(html_files)]: one line handed to the file per
    record, each by its own [write] call *)
Definition writerows (records : list PageRecord) : list string :=
  map (fun r => writerow (record_fields r)) records.

(** *** The codec of the output file: [encoding='cp1252'],
    [errors='replace'] *)

(** A [str] is held as the string of its UTF-8 bytes; [code_points]
    reads its characters back.  Bytes that encode no character stand for
    a character no codec can write, as the lone surrogates of a Python
    string do; they are read as U+FFFD. *)
Definition is_continuation (c : ascii) : bool :=
  ((128 <=? N_of_ascii c) && (N_of_ascii c <? 192))%N.

Definition low6 (c : ascii) : N := (N_of_ascii c - 128)%N.

Fixpoint code_points (s : string) : list N :=
  match s with
  | EmptyString => []
  | String a s1 =>
      let b0 := N_of_ascii a in
      if (b0 <? 128)%N then b0 :: code_points s1
      else if ((192 <=? b0) && (b0 <? 224))%N then
        match s1 with
        | String b s2 =>
            if is_continuation b
            then ((b0 - 192) * 64 + low6 b)%N :: code_points s2
            else 65533%N :: code_points s1
        | _ => 65533%N :: code_points s1
        end
      else if ((224 <=? b0) && (b0 <? 240))%N then
        match s1 with
        | String b (String c s3) =>
            if is_continuation b && is_continuation c
            then ((b0 - 224) * 4096 + low6 b * 64 + low6 c)%N
                   :: code_points s3
            else 65533%N :: code_points s1
        | _ => 65533%N :: code_points s1
        end
      else if ((240 <=? b0) && (b0 <? 248))%N then
        match s1 with
        | String b (String c (String d s4)) =>
            if is_continuation b && is_continuation c && is_continuation d
            then ((b0 - 240) * 262144 + low6 b * 4096 + low6 c * 64
                  + low6 d)%N :: code_points s4
            else 65533%N :: code_points s1
        | _ => 65533%N :: code_points s1
        end
      else 65533%N :: code_points s1
  end.

(** The characters of cp1252 between 0x80 and 0x9F, as (code point,
    byte); the bytes 0x81, 0x8D, 0x8F, 0x90 and 0x9D have none. *)
Definition cp1252_high : list (N * N) :=
  [ (8364, 128); (8218, 130); (402, 131); (8222, 132); (8230, 133);
    (8224, 134); (8225, 135); (710, 136); (8240, 137); (352, 138);
    (8249, 139); (338, 140); (381, 142); (8216, 145); (8217, 146);
    (8220, 147); (8221, 148); (8226, 149); (8211, 150); (8212, 151);
    (732, 152); (8482, 153); (353, 154); (8250, 155); (339, 156);
    (382, 158); (376, 159) ]%N.

Fixpoint table_get (cp : N) (table : list (N * N)) : option N :=
  match table with
  | [] => None
  | (k, b) :: rest => if (k =? cp)%N then Some b else table_get cp rest
  end.

(** One character: its cp1252 byte, or [?] under [errors='replace']. *)
Definition cp1252_char (cp : N) : Byte.byte :=
  let b :=
    if (cp <? 128)%N then cp
    else if ((160 <=? cp) && (cp <? 256))%N then cp
    else match table_get cp cp1252_high with
         | Some b => b
         | None => 63%N
         end in
  byte_of_ascii (ascii_of_N b).

(** [text.encode('cp1252', errors='replace')] *)
Definition cp1252_replace (text : string) : list Byte.byte :=
  map cp1252_char (code_points text).

(** [str(n)] *)
Definition str_of_nat (n : nat) : string :=
  NilEmpty.string_of_uint (Nat.to_uint n).

Section Scan.

(** [Path(p).resolve()]: the components of the absolute path, symbolic
    links followed; it depends on the disk and the working directory. *)
Variable resolve : string -> list string.

(** [get_metadata_from_html], by path; it never raises. *)
Variable get_metadata_from_html : string -> Metadata.

(** [get_relative_path] *)
Definition get_relative_path (root_dir file_path : string) : string :=
  let root := resolve root_dir in
  let file := resolve file_path in
  match relative_to file root with
  | Some relative =>
      if (List.length relative =? 1)%nat then ""
      else path_str (parent relative)
  | None => ""
  end.

(** Body of the inner loop of [scan_directory]: the records one file
    name of one walked directory contributes. *)
Definition scan_file (root_dir root file : string) : list PageRecord :=
  if endswith ".html" (lower file) || endswith ".htm" (lower file) then
    let full_path := PosixPath.join root [file] in
    let rel_dir := get_relative_path root_dir full_path in
    let filename := fst (PosixPath.splitext file) in
    let metadata := get_metadata_from_html full_path in
    [ {| relative_dir := rel_dir;
         filename := filename;
         keywords := md_keywords metadata;
         description := md_description metadata;
         module_ := md_module metadata;
         title := md_title metadata |} ]
  else [].

(** The list [html_files] after the walk; [walk] is what
    [os.walk(root_dir)] yields: each directory with its file names. *)
Definition collect (root_dir : string) (walk : list (string * list string))
  : list PageRecord :=
  flat_map (fun '(root, files) => flat_map (scan_file root_dir root) files)
           walk.

(** What a run of [scan_directory] leaves behind: the bytes of
    [output_file] ([None]: the file is never opened) and the line
    printed. *)
Record ScanResult : Type := mkScanResult {
  written : option (list Byte.byte);
  printed : string
}.

(** The codec [open] gives the file: [encoding='cp1252'],
    [errors='replace'].  It turns the text of each [write] call into the
    bytes that reach the file; [cp1252_replace] is this codec. *)
Variable encode : string -> list Byte.byte.

(** [scan_directory] *)
Definition scan_directory (root_dir : string)
  (walk : list (string * list string)) : ScanResult :=
  let html_files := collect root_dir walk in
  match html_files with
  | _ :: _ =>
      {| written :=
           Some (flat_map encode (writeheader :: writerows html_files));
         printed :=
           "Scan terminé. " ++ str_of_nat (List.length html_files)
           ++ " fichiers HTML traités." |}
  | [] =>
      {| written := None;
         printed := "Aucun fichier HTML trouvé." |}
  end.

End Scan.

(** Whether a printed line shows a number. *)
Definition is_digit (c : ascii) : bool :=
  let n := nat_of_ascii c in ((48 <=? n) && (n <=? 57))%nat.

Fixpoint has_digit (s : string) : bool :=
  match s with
  | EmptyString => false
  | String c s' => is_digit c || has_digit s'
  end.

(** A resolver for tests: absolute POSIX paths without links or dots. *)
Definition resolve_plain (p : string) : list string :=
  filter (fun s => negb (String.eqb s "")) (split "/"%char p).

Definition no_metadata (_ : string) : Metadata :=
  {| md_keywords := ""; md_description := ""; md_module := "";
     md_title := "" |}.

End Scanner.

(* ------------------------------------------------------------------ *)
(** ** [main.py]: metadata extractor *)

Module Extractor.
Import Scanner.

(** A [meta] element as the parser hands it over: its [name] and
    [content] attributes, [None] where the attribute is absent. *)
Record MetaTag : Type := mkMeta {
  meta_name : option string;
  meta_content : option string
}.

(** What [get_metadata_from_html] sees of a file: reading or parsing
    raises, or the parser yields the [meta] elements in document order
    and the first [title] element ([None]: no such element; its [.string]
    is [None] when the element has no single text child). *)
Inductive HtmlDoc : Type :=
| DocError
| Doc (metas : list MetaTag) (title_tag : option (option string)).

(** The dictionary [metadata] starts with four empty strings; it is also
    what the [except] branch returns. *)
Definition empty_metadata : Metadata :=
  {| md_keywords := ""; md_description := ""; md_module := "";
     md_title := "" |}.

(** [tag.get(attr, '')] *)
Definition attr_get (a : option string) : string :=
  match a with Some v => v | None => "" end.

(** [metadata[key]] on the four keys the dictionary has *)
Definition metadata_get (key : string) (metadata : Metadata) : string :=
  if String.eqb key "keywords" then md_keywords metadata
  else if String.eqb key "description" then md_description metadata
  else if String.eqb key "module" then md_module metadata
  else if String.eqb key "title" then md_title metadata
  else "".

Section Extract.

(** [str.lower], which knows the case tables of Unicode. *)
Variable str_lower : string -> string.

(** Body of the [for meta in soup.find_all('meta')] loop *)
Definition meta_step (metadata : Metadata) (meta : MetaTag) : Metadata :=
  let name := str_lower (attr_get (meta_name meta)) in
  let content := attr_get (meta_content meta) in
  if String.eqb name "keywords" then
    {| md_keywords := content;
       md_description := md_description metadata;
       md_module := md_module metadata;
       md_title := md_title metadata |}
  else if String.eqb name "description" then
    {| md_keywords := md_keywords metadata;
       md_description := content;
       md_module := md_module metadata;
       md_title := md_title metadata |}
  else if String.eqb name "module" then
    {| md_keywords := md_keywords metadata;
       md_description := md_description metadata;
       md_module := content;
       md_title := md_title metadata |}
  else metadata.

(** [get_metadata_from_html], on the parsed file *)
Definition get_metadata_from_html (doc : HtmlDoc) : Metadata :=
  match doc with
  | DocError => empty_metadata
  | Doc metas title_tag =>
      let metadata := fold_left meta_step metas empty_metadata in
      match title_tag with
      | Some str =>
          {| md_keywords := md_keywords metadata;
             md_description := md_description metadata;
             md_module := md_module metadata;
             md_title := match str with Some s => s | None => "" end |}
      | None => metadata
      end
  end.

End Extract.

End Extractor.

(* ================================================================== *)
(** * Properties *)

Import PyStr PyDict NX LinkNormalizer Generator.

(** ** Strings *)

Section StringFacts.

Lemma prefix_app (p rest : string) : String.prefix p (p ++ rest) = true.
Proof.
  induction p as [|c p IH]; simpl.
  - destruct rest; reflexivity.
  - destruct (ascii_dec c c) as [_|ne]; [exact IH | now elim ne].
Qed.

Lemma prefix_split (p s : string) :
  String.prefix p s = true -> exists rest, s = p ++ rest.
Proof.
  revert s; induction p as [|c p IH]; intros s H.
  - now exists s.
  - destruct s as [|a s]; simpl in H; [discriminate|].
    destruct (ascii_dec c a) as [->|]; [|discriminate].
    destruct (IH _ H) as [rest ->]. now exists rest.
Qed.

Lemma split_nonempty (sep : ascii) (s : string) : split sep s <> [].
Proof.
  destruct s as [|c s]; simpl; [discriminate|].
  destruct (Ascii.eqb c sep); [discriminate|].
  destruct (split sep s); discriminate.
Qed.

(** A string without the separator is its own single piece. *)
Lemma split_absent (sep : ascii) (s : string) :
  ~ In sep (list_ascii_of_string s) -> split sep s = [s].
Proof.
  induction s as [|c s IH]; simpl; intros H; [reflexivity|].
  destruct (Ascii.eqb_spec c sep) as [->|ne].
  - elim H; now left.
  - rewrite IH; [reflexivity | intros Hin; apply H; now right].
Qed.

(** The first piece stops at the first separator. *)
Lemma split_hd_app (sep : ascii) (s rest : string) :
  ~ In sep (list_ascii_of_string s) ->
  hd "" (split sep (s ++ String sep rest)) = s.
Proof.
  induction s as [|c s IH]; simpl; intros H.
  - now rewrite Ascii.eqb_refl.
  - destruct (Ascii.eqb_spec c sep) as [->|ne].
    + elim H; now left.
    + assert (Hs : ~ In sep (list_ascii_of_string s))
        by (intros Hin; apply H; now right).
      specialize (IH Hs).
      destruct (split sep (s ++ String sep rest)) as [|p ps] eqn:E;
        simpl in *; [now elim (split_nonempty sep _ E) | now subst].
Qed.

(** The first character survives fragment and extension stripping. *)
Lemma split_hd_first (sep a : ascii) (s t : string) :
  hd "" (split sep s) = String a t -> exists t', s = String a t'.
Proof.
  destruct s as [|c s]; simpl; [discriminate|].
  destruct (Ascii.eqb c sep); simpl; [discriminate|].
  destruct (split sep s); simpl; intros [= -> _]; eauto.
Qed.

Lemma take_first (n : nat) (a : ascii) (s t : string) :
  take n s = String a t -> exists t', s = String a t'.
Proof.
  destruct n, s; simpl; try discriminate. intros [= -> _]; eauto.
Qed.

Lemma splitext_first (a : ascii) (s t : string) :
  fst (PosixPath.splitext s) = String a t -> exists t', s = String a t'.
Proof.
  unfold PosixPath.splitext.
  destruct (_ <? _)%Z; simpl; [|intros ->; eauto].
  destruct (PosixPath.all_dots _); simpl; [intros ->; eauto|].
  apply take_first.
Qed.

End StringFacts.

(** ** Link normalizer *)

Section NormalizerFacts.

Lemma pop_ascents_count (parts : list string) (n : nat) :
  (n <= fst (pop_ascents parts n))%nat.
Proof.
  revert n; induction parts as [|p parts IH]; intros n; simpl; [lia|].
  destruct (String.eqb p ".."); simpl; [|lia].
  specialize (IH (S n)); lia.
Qed.

Lemma split_ascent (r : string) :
  split "/"%char ("../" ++ r) = ".." :: split "/"%char r.
Proof. reflexivity. Qed.

(** An href that still begins with an ascent after cleaning was not
    filtered by the scheme test. *)
Lemma ascent_not_rejected (href : string) :
  startswith "../" (strip_extension (strip_fragment href)) = true ->
  startswith_any rejected_prefixes href = false.
Proof.
  unfold startswith. intros H.
  apply prefix_split in H as [rest H]. simpl in H.
  apply splitext_first in H as [t1 H].
  apply split_hd_first in H as [t2 ->].
  reflexivity.
Qed.

(** X5: the true part of the ascent rule, for every directory and href: with
    [current_dir] cut at its slashes (the empty string being one empty
    piece), the last [up_count] pieces are replaced by the rest of the
    href, and an ascent longer than the piece count is not resolvable. *)
Lemma ascent_resolution (current_dir href : string) :
  let h := strip_extension (strip_fragment href) in
  startswith "../" h = true ->
  let up_count := fst (pop_ascents (split "/"%char h) 0) in
  let rest := snd (pop_ascents (split "/"%char h) 0) in
  let current_parts := split "/"%char current_dir in
  (1 <= up_count)%nat /\
  normalize_path current_dir href =
    if (up_count <=? List.length current_parts)%nat
    then Some (join "/"
                 (firstn (List.length current_parts - up_count) current_parts
                  ++ rest))
    else None.
Proof.
  intros h Hh up_count rest current_parts.
  assert (Hup : (1 <= up_count)%nat).
  { unfold up_count. pose proof Hh as Hp. unfold startswith in Hp.
    apply prefix_split in Hp as [r ->]. rewrite split_ascent. simpl.
    apply pop_ascents_count. }
  split; [exact Hup|].
  unfold normalize_path. rewrite (ascent_not_rejected _ Hh).
  fold h. unfold resolve. rewrite Hh.
  fold up_count rest current_parts.
  destruct (pop_ascents (split "/"%char h) 0) as [u p] eqn:E.
  unfold up_count, rest in *. rewrite ?E in *. simpl in *.
  unfold slice_to_neg.
  destruct (Nat.eqb_spec u 0) as [->|_]; [lia | reflexivity].
Qed.

End NormalizerFacts.

Section NormalizerClaims.

Lemma extract_links_app (a1 a2 : list (string * string)) (cd : string) :
  extract_links_from_html (Page (a1 ++ a2)%list) cd =
  (extract_links_from_html (Page a1) cd
   ++ extract_links_from_html (Page a2) cd)%list.
Proof. simpl. apply flat_map_app. Qed.

(** C1, evaluated where the code leaves it.  For [current_dir = "a/b"]
    the three ascents of the claim come out as stated.  For the empty
    [current_dir], which names the root and has no directory to leave,
    [split] still yields one (empty) piece, the depth test
    [len(current_parts) >= up_count] passes for one ascent, and the href
    [../c] resolves to the identifier [c] instead of being not
    resolvable; only two or more ascents are refused there. *)
Theorem ascent_from_root_level_page :
  normalize_path "a/b" "../c" = Some "a/c" /\
  normalize_path "a/b" "../../c" = Some "c" /\
  normalize_path "a/b" "../../../c" = None /\
  split "/"%char "" = [""] /\
  normalize_path "" "../c" = Some "c" /\
  normalize_path "" "../c.html#top" = Some "c" /\
  normalize_path "" "../../c" = None /\
  extract_links_from_html (Page [("../c", "up")]) "" = [("c", "up")].
Proof. repeat split; reflexivity. Qed.

(** C2 as stated fails in its last part: a resolved identifier can carry
    an extension, because exactly one extension is removed. *)
Lemma resolved_identifier_with_extension :
  ~ (forall current_dir href id,
        normalize_path current_dir href = Some id ->
        snd (PosixPath.splitext id) = "").
Proof.
  intros H. specialize (H "" "page.v2.html" "page.v2" eq_refl).
  discriminate H.
Qed.

(** C2, amended: for every [current_dir], [page.html#top] and
    [page.html] resolve to the same identifier, [current_dir] joined with
    [page]; and for every href that passes the scheme test, what follows
    the first [#] is dropped first, then the one extension that
    [os.path.splitext] finds, and the result is resolved. *)
Theorem fragment_then_extension_stripped (current_dir : string) :
  normalize_path current_dir "page.html#top"
    = Some (PosixPath.join current_dir ["page"]) /\
  normalize_path current_dir "page.html"
    = Some (PosixPath.join current_dir ["page"]) /\
  (forall h frag : string,
      ~ In "#"%char (list_ascii_of_string h) ->
      startswith_any rejected_prefixes (h ++ "#" ++ frag) = false ->
      normalize_path current_dir (h ++ "#" ++ frag)
        = resolve current_dir (fst (PosixPath.splitext h))) /\
  (forall h : string,
      ~ In "#"%char (list_ascii_of_string h) ->
      startswith_any rejected_prefixes h = false ->
      normalize_path current_dir h
        = resolve current_dir (fst (PosixPath.splitext h))).
Proof.
  repeat split.
  - intros h frag Hh Hrej. unfold normalize_path. rewrite Hrej.
    unfold strip_fragment, strip_extension.
    change (h ++ "#" ++ frag) with (h ++ String "#"%char frag).
    now rewrite split_hd_app.
  - intros h Hh Hrej. unfold normalize_path. rewrite Hrej.
    unfold strip_fragment, strip_extension.
    now rewrite split_absent.
Qed.

Lemma fragment_then_extension_witness :
  normalize_path "guide" ("intro.htm" ++ "#" ++ "s2")
    = resolve "guide" (fst (PosixPath.splitext "intro.htm")) /\
  normalize_path "guide" "intro.htm"
    = resolve "guide" (fst (PosixPath.splitext "intro.htm")).
Proof.
  split.
  - apply (proj1 (proj2 (proj2 (fragment_then_extension_stripped "guide")))).
    + simpl. intuition discriminate.
    + reflexivity.
  - apply (proj2 (proj2 (proj2 (fragment_then_extension_stripped "guide")))).
    + simpl. intuition discriminate.
    + reflexivity.
Defined.

(** C3: whatever the current directory, an href that begins with
    [http://], [https://], [mailto:], [#] or [javascript:] is not
    resolvable, and its anchor adds nothing to the links of the page, so
    no edge can come from it. *)
Theorem rejected_scheme_not_resolvable
  (current_dir href p rest : string)
  (Hp : In p ["http://"; "https://"; "mailto:"; "#"; "javascript:"])
  (Hhref : href = p ++ rest) :
  normalize_path current_dir href = None /\
  (forall before after text,
      extract_links_from_html
        (Page (before ++ (href, text) :: after)%list) current_dir
      = extract_links_from_html (Page (before ++ after)%list) current_dir).
Proof.
  assert (Hnone : normalize_path current_dir href = None).
  { unfold normalize_path, startswith_any, rejected_prefixes, startswith.
    subst href. simpl existsb.
    simpl in Hp.
    destruct Hp as [<-|[<-|[<-|[<-|[<-|[]]]]]];
      rewrite prefix_app; rewrite ?orb_true_r; reflexivity. }
  split; [exact Hnone|].
  intros before after text.
  change (before ++ (href, text) :: after)%list
    with (before ++ [(href, text)] ++ after)%list.
  rewrite !extract_links_app.
  replace (extract_links_from_html (Page [(href, text)]) current_dir)
    with (@nil (string * string)); [reflexivity|].
  simpl. now rewrite Hnone.
Qed.

Lemma rejected_scheme_witness :
  normalize_path "docs" "https://example.com" = None /\
  (forall before after text,
      extract_links_from_html
        (Page (before ++ ("https://example.com", text) :: after)%list) "docs"
      = extract_links_from_html (Page (before ++ after)%list) "docs").
Proof.
  apply (rejected_scheme_not_resolvable
           "docs" "https://example.com" "https://" "example.com").
  - simpl. auto.
  - reflexivity.
Defined.

End NormalizerClaims.

(** ** Dictionaries *)

Section DictFacts.
Context {V : Type}.
Implicit Types (d : dict V) (k : string) (v : V).

Lemma get_set_same k v d : get k (set k v d) = Some v.
Proof.
  induction d as [|[k0 v0] d IH]; simpl.
  - now rewrite String.eqb_refl.
  - destruct (String.eqb_spec k0 k) as [->|ne]; simpl.
    + now rewrite String.eqb_refl.
    + destruct (String.eqb_spec k0 k); [contradiction | exact IH].
Qed.

Lemma get_set_ne k k' v d : k <> k' -> get k' (set k v d) = get k' d.
Proof.
  intros ne. induction d as [|[k0 v0] d IH]; simpl.
  - destruct (String.eqb_spec k k'); [contradiction | reflexivity].
  - destruct (String.eqb_spec k0 k) as [->|ne0]; simpl.
    + destruct (String.eqb_spec k k'); [contradiction | reflexivity].
    + now rewrite IH.
Qed.

Lemma mem_In_keys k d : mem k d = true <-> In k (keys d).
Proof.
  unfold mem. induction d as [|[k0 v0] d IH]; simpl.
  - split; [discriminate | tauto].
  - destruct (String.eqb_spec k0 k) as [->|ne].
    + split; auto.
    + rewrite IH. split; [auto | intros [e|H]; [contradiction | exact H]].
Qed.

Lemma get_In k v d : get k d = Some v -> In (k, v) d.
Proof.
  induction d as [|[k0 v0] d IH]; simpl; [discriminate|].
  destruct (String.eqb_spec k0 k) as [->|ne].
  - intros [= ->]. now left.
  - intros H. right. now apply IH.
Qed.

Lemma In_keys k v d : In (k, v) d -> In k (keys d).
Proof. intros H. apply (in_map fst) in H. exact H. Qed.

Lemma In_mem k v d : In (k, v) d -> mem k d = true.
Proof. intros H. apply mem_In_keys. eapply In_keys, H. Qed.

Lemma In_get k v d : NoDup (keys d) -> In (k, v) d -> get k d = Some v.
Proof.
  induction d as [|[k0 v0] d IH]; simpl; [tauto|].
  intros Hnd [e|H]; inversion_clear Hnd as [|? ? Hnotin Hnd'].
  - injection e as -> ->. now rewrite String.eqb_refl.
  - destruct (String.eqb_spec k0 k) as [->|ne].
    + elim Hnotin. eapply In_keys, H.
    + now apply IH.
Qed.

Lemma In_set_inv k v k' v' d :
  In (k', v') (set k v d) -> (k' = k /\ v' = v) \/ In (k', v') d.
Proof.
  induction d as [|[k0 v0] d IH]; simpl.
  - intros [[= <- <-]|[]]. now left.
  - destruct (String.eqb_spec k0 k) as [->|ne]; simpl.
    + intros [[= <- <-]|H]; auto.
    + intros [e|H]; [now right; left|].
      destruct (IH H); auto.
Qed.

Lemma keys_set_mem k v d : mem k d = true -> keys (set k v d) = keys d.
Proof.
  unfold mem. induction d as [|[k0 v0] d IH]; simpl; [discriminate|].
  destruct (String.eqb_spec k0 k) as [->|ne]; simpl; [reflexivity|].
  intros H. now rewrite IH.
Qed.

Lemma keys_set_new k v d :
  mem k d = false -> keys (set k v d) = (keys d ++ [k])%list.
Proof.
  unfold mem. induction d as [|[k0 v0] d IH]; simpl; [reflexivity|].
  destruct (String.eqb_spec k0 k) as [->|ne]; simpl; [discriminate|].
  intros H. now rewrite IH.
Qed.

Lemma In_keys_set k k' v d :
  In k' (keys (set k v d)) <-> k' = k \/ In k' (keys d).
Proof.
  destruct (mem k d) eqn:E.
  - rewrite keys_set_mem by exact E. apply mem_In_keys in E.
    split; [auto | intros [->|H]; assumption].
  - rewrite keys_set_new by exact E. rewrite in_app_iff. simpl.
    split; [intros [H|[<-|[]]]; auto | intros [->|H]; auto].
Qed.

Lemma mem_set k k' v d : mem k' d = true -> mem k' (set k v d) = true.
Proof. rewrite !mem_In_keys, In_keys_set. auto. Qed.

Lemma mem_set_same k v d : mem k (set k v d) = true.
Proof. rewrite mem_In_keys, In_keys_set. auto. Qed.

Lemma NoDup_keys_set k v d : NoDup (keys d) -> NoDup (keys (set k v d)).
Proof.
  intros H. destruct (mem k d) eqn:E.
  - now rewrite keys_set_mem.
  - rewrite keys_set_new by exact E.
    apply NoDup_app; [exact H | repeat constructor; simpl; tauto |].
    intros a Ha [<-|[]]. apply mem_In_keys in Ha. congruence.
Qed.

End DictFacts.

(** ** The directed graph *)

Section GraphFacts.
Implicit Types (G : DiGraph) (u v s t n rel : string) (d : datadict).

Lemma wf_empty : wf NX.empty.
Proof. split; [constructor | intros ? ? []]. Qed.

Lemma edges_In G s t d :
  In (s, t, d) (edges G) <->
  exists nbrs, In (s, nbrs) G /\ In (t, d) nbrs.
Proof.
  unfold edges. rewrite in_flat_map. split.
  - intros [[n nbrs] [HG H]]. apply in_map_iff in H as [[nbr dd] [[= -> -> ->] H]].
    eauto.
  - intros [nbrs [HG H]]. exists (s, nbrs). split; [exact HG|].
    apply in_map_iff. exists (t, d). auto.
Qed.

Lemma edges_edge_data G s t d :
  wf G -> (In (s, t, d) (edges G) <-> edge_data G s t = Some d).
Proof.
  intros [Hk Hn]. rewrite edges_In. unfold edge_data. split.
  - intros [nbrs [HG H]]. rewrite (In_get _ _ _ Hk HG).
    apply In_get; [eapply Hn, HG | exact H].
  - destruct (get s G) as [nbrs|] eqn:E; [|discriminate].
    intros H. exists nbrs. split; now apply get_In.
Qed.

Lemma add_node_mem G n : mem n G = true -> add_node G n = G.
Proof. unfold add_node. now intros ->. Qed.

Lemma In_nodes_add_node G n m :
  In m (nodes (add_node G n)) <-> m = n \/ In m (nodes G).
Proof.
  unfold add_node, nodes. destruct (mem n G) eqn:E.
  - apply mem_In_keys in E. split; [auto | intros [->|H]; assumption].
  - apply In_keys_set.
Qed.

Lemma add_node_In_inv G n m nbrs :
  In (m, nbrs) (add_node G n) -> In (m, nbrs) G \/ (m = n /\ nbrs = []).
Proof.
  unfold add_node. destruct (mem n G); [auto|].
  intros H. apply In_set_inv in H. tauto.
Qed.

Lemma wf_add_node G n : wf G -> wf (add_node G n).
Proof.
  intros [Hk Hn]. split.
  - unfold add_node. destruct (mem n G); [exact Hk|].
    now apply NoDup_keys_set.
  - intros m nbrs H. apply add_node_In_inv in H as [H|[_ ->]].
    + eapply Hn, H.
    + constructor.
Qed.

Lemma get_add_node G n k :
  get k (add_node G n) =
  match get k G with
  | Some x => Some x
  | None => if String.eqb n k then Some [] else None
  end.
Proof.
  unfold add_node. destruct (mem n G) eqn:E.
  - destruct (get k G) eqn:Ek; [reflexivity|].
    destruct (String.eqb_spec n k) as [->|]; [|reflexivity].
    unfold mem in E. now rewrite Ek in E.
  - destruct (String.eqb_spec n k) as [->|ne].
    + rewrite get_set_same. unfold mem in E.
      destruct (get k G); [discriminate | reflexivity].
    + rewrite get_set_ne by exact ne. now destruct (get k G).
Qed.

Lemma edge_data_add_node G n u v :
  edge_data (add_node G n) u v = edge_data G u v.
Proof.
  unfold edge_data. rewrite get_add_node.
  destruct (get u G); [reflexivity|].
  now destruct (String.eqb n u).
Qed.

Lemma edges_add_node G n s t d :
  In (s, t, d) (edges (add_node G n)) <-> In (s, t, d) (edges G).
Proof.
  rewrite !edges_In. split.
  - intros [nbrs [H Ht]]. apply add_node_In_inv in H as [H|[_ ->]].
    + eauto.
    + destruct Ht.
  - intros [nbrs [H Ht]]. exists nbrs. split; [|exact Ht].
    unfold add_node. destruct (mem n G) eqn:E; [exact H|].
    apply In_mem in H as Hm.
    assert (ne : n <> s) by congruence.
    clear - H ne. induction G as [|[k0 v0] G IH]; simpl in *; [tauto|].
    destruct H as [[= -> ->]|H].
    * destruct (String.eqb_spec s n); [congruence | now left].
    * destruct (String.eqb k0 n); right; auto.
Qed.

End GraphFacts.

Section AddEdgeFacts.
Implicit Types (G : DiGraph) (u v s t n rel : string) (d : datadict).

Lemma get_source_after_add_nodes G u v :
  exists nbrs, get u (add_node (add_node G u) v) = Some nbrs.
Proof.
  rewrite !get_add_node. destruct (get u G); [eauto|].
  rewrite String.eqb_refl. eauto.
Qed.

Lemma In_nodes_add_edge G u v rel m :
  In m (nodes (add_edge G u v rel)) <-> m = u \/ m = v \/ In m (nodes G).
Proof.
  unfold add_edge.
  destruct (get_source_after_add_nodes G u v) as [nbrs E]. rewrite E.
  unfold nodes. rewrite In_keys_set.
  fold (nodes (add_node (add_node G u) v)).
  rewrite !In_nodes_add_node. tauto.
Qed.

Lemma wf_add_edge G u v rel : wf G -> wf (add_edge G u v rel).
Proof.
  intros H. unfold add_edge.
  destruct (get_source_after_add_nodes G u v) as [nbrs E]. rewrite E.
  assert (H2 : wf (add_node (add_node G u) v)) by now do 2 apply wf_add_node.
  destruct H2 as [Hk Hn]. split.
  - now apply NoDup_keys_set.
  - intros m nb Hin. apply In_set_inv in Hin as [[-> ->]|Hin].
    + apply NoDup_keys_set. eapply Hn, get_In, E.
    + eapply Hn, Hin.
Qed.

Lemma edge_data_add_edge_same G u v rel :
  exists dd, edge_data (add_edge G u v rel) u v = Some dd
             /\ get "relationship" dd = Some rel.
Proof.
  unfold add_edge.
  destruct (get_source_after_add_nodes G u v) as [nbrs E]. rewrite E.
  unfold edge_data. rewrite get_set_same, get_set_same.
  eexists; split; [reflexivity | apply get_set_same].
Qed.

Lemma edge_data_add_edge_other G u v rel u' v' :
  u' <> u \/ v' <> v ->
  edge_data (add_edge G u v rel) u' v' = edge_data G u' v'.
Proof.
  intros Hne. unfold add_edge.
  destruct (get_source_after_add_nodes G u v) as [nbrs E]. rewrite E.
  rewrite <- (edge_data_add_node G u u' v').
  rewrite <- (edge_data_add_node (add_node G u) v u' v').
  unfold edge_data at 1 2.
  destruct (String.eqb_spec u u') as [<-|ne].
  - rewrite get_set_same, E. destruct Hne as [Hne|Hne]; [congruence|].
    apply get_set_ne. congruence.
  - now rewrite get_set_ne.
Qed.

(** An edge of the graph after [add_edge] is the added one or an old one. *)
Lemma edges_add_edge_inv G u v rel s t d :
  wf G ->
  In (s, t, d) (edges (add_edge G u v rel)) ->
  (s = u /\ t = v /\ get "relationship" d = Some rel)
  \/ In (s, t, d) (edges G).
Proof.
  intros Hwf Hin.
  apply edges_edge_data in Hin; [|now apply wf_add_edge].
  destruct (String.eqb_spec s u) as [->|ne].
  - destruct (String.eqb_spec t v) as [->|ne'].
    + left. destruct (edge_data_add_edge_same G u v rel) as [dd [E1 E2]].
      rewrite E1 in Hin. injection Hin as <-. auto.
    + right. rewrite edge_data_add_edge_other in Hin by auto.
      now apply edges_edge_data.
  - right. rewrite edge_data_add_edge_other in Hin by auto.
    now apply edges_edge_data.
Qed.

End AddEdgeFacts.

(** ** The generator *)

Section GeneratorFacts.
Implicit Types (G : DiGraph) (known : dict Info) (self : KnowledgeGraphGenerator).

Lemma closed_add_link known node_id G link :
  mem node_id known = true ->
  closed known G -> closed known (add_link known node_id G link).
Proof.
  intros Hsrc (Hwf & Hnodes & Hedges). destruct link as [t text].
  unfold add_link. destruct (mem t known) eqn:Et;
    [|exact (conj Hwf (conj Hnodes Hedges))].
  split; [now apply wf_add_edge|]. split.
  - intros k Hk. apply In_nodes_add_edge. auto.
  - intros s t' d H.
    apply edges_add_edge_inv in H as [(-> & -> & _)|H];
      [auto | eapply Hedges, H | exact Hwf].
Qed.

Lemma closed_add_links known node_id links G :
  mem node_id known = true ->
  closed known G ->
  closed known (fold_left (add_link known node_id) links G).
Proof.
  intros Hsrc. revert G. induction links as [|l links IH]; intros G H; simpl.
  - exact H.
  - apply IH. now apply closed_add_link.
Qed.

Lemma add_node_links_unfold fs root_dir known G node_id info :
  add_node_links fs root_dir known G (node_id, info) =
  match source_file fs root_dir info with
  | Some file =>
      fold_left (add_link known node_id)
        (extract_links_from_html file (info_relative_dir info)) G
  | None => G
  end.
Proof.
  unfold add_node_links, source_file.
  destruct (fs (PosixPath.join root_dir
                  [info_relative_dir info; info_filename info ++ ".html"]))
    as [file|] eqn:E.
  - now rewrite E.
  - reflexivity.
Qed.

Lemma closed_add_node_links fs root_dir known G item :
  mem (fst item) known = true ->
  closed known G -> closed known (add_node_links fs root_dir known G item).
Proof.
  destruct item as [node_id info]. intros Hsrc H. simpl in Hsrc.
  rewrite add_node_links_unfold.
  destruct (source_file fs root_dir info); [|exact H].
  now apply closed_add_links.
Qed.

Lemma closed_fold_items fs root_dir known items G :
  (forall item, In item items -> mem (fst item) known = true) ->
  closed known G ->
  closed known (fold_left (add_node_links fs root_dir known) items G).
Proof.
  revert G. induction items as [|item items IH]; intros G Hitems H; simpl.
  - exact H.
  - apply IH.
    + intros i Hi. apply Hitems. now right.
    + apply closed_add_node_links; [apply Hitems; now left | exact H].
Qed.

Lemma consistent_init : consistent init.
Proof.
  split; [constructor|]. split; [apply wf_empty|].
  split; [discriminate | intros ? ? ? []].
Qed.

Lemma consistent_add_row self row : consistent self -> consistent (add_row self row).
Proof.
  intros (Hnd & Hwf & Hnodes & Hedges). unfold add_row.
  split; simpl; [now apply NoDup_keys_set|].
  split; [now apply wf_add_node|]. split.
  - intros k Hk. apply In_nodes_add_node.
    apply mem_In_keys, In_keys_set in Hk as [->|Hk]; [now left|].
    right. now apply Hnodes, mem_In_keys.
  - intros s t d H. apply edges_add_node in H.
    destruct (Hedges _ _ _ H). split; now apply mem_set.
Qed.

Lemma consistent_add_metadata self rows :
  consistent self -> consistent (add_metadata_to_graph self rows).
Proof.
  unfold add_metadata_to_graph. revert self.
  induction rows as [|r rows IH]; intros self H; simpl; [exact H|].
  apply IH. now apply consistent_add_row.
Qed.

Lemma consistent_add_links self fs root_dir :
  consistent self -> consistent (add_links_to_graph self fs root_dir).
Proof.
  intros [Hnd H]. split; simpl; [exact Hnd|].
  apply closed_fold_items; [|exact H].
  intros [k i] Hi. simpl. eapply In_mem, Hi.
Qed.

Lemma consistent_run ops self : consistent self -> consistent (run ops self).
Proof.
  unfold run. revert self. induction ops as [|op ops IH]; intros self H; simpl.
  - exact H.
  - apply IH. destruct op; simpl.
    + now apply consistent_add_metadata.
    + now apply consistent_add_links.
Qed.

Lemma export_edge_inv self e :
  In e (gd_edges (export_graph self)) ->
  exists s t d, In (s, t, d) (edges (graph self))
                /\ source e = s /\ target e = t
                /\ relationship e =
                     match get "relationship" d with Some r => r | None => "" end.
Proof.
  simpl. intros H. apply in_map_iff in H as [[[s t] d] [<- H]].
  exists s, t, d. auto.
Qed.

End GeneratorFacts.

Section EdgeEndpoints.

(** C4: after any sequence of [add_metadata_to_graph] and
    [add_links_to_graph] calls on a fresh generator, every exported edge
    has a source and a target that are nodes of the exported graph and
    known identifiers; and a link whose target is not a known identifier
    leaves the graph as it is (no edge, no error). *)
Theorem edge_endpoints_registered (ops : list Op) (e : EdgeObj)
  (He : In e (gd_edges (export_graph (run ops init)))) :
  let self := run ops init in
  (In (source e) (gd_nodes (export_graph self))
   /\ In (target e) (gd_nodes (export_graph self))
   /\ mem (source e) (nodes_info self) = true
   /\ mem (target e) (nodes_info self) = true)
  /\ (forall node_id G target_path link_text,
         mem target_path (nodes_info self) = false ->
         add_link (nodes_info self) node_id G (target_path, link_text) = G).
Proof.
  intros self. split.
  - destruct (consistent_run ops init consistent_init)
      as (_ & _ & Hnodes & Hedges).
    apply export_edge_inv in He as (s & t & d & Hin & -> & -> & _).
    destruct (Hedges _ _ _ Hin) as [Hs Ht]. fold self in Hnodes.
    simpl. auto.
  - intros node_id G t text Ht. simpl. now rewrite Ht.
Qed.

End EdgeEndpoints.

Section EdgeEndpointsWitness.

Lemma edge_endpoints_witness :
  In (mkEdge "index" "sub/child" "Go")
     (gd_edges (export_graph
        (run [AddMetadata Scenario.rows; AddLinks Scenario.fs "/site"] init)))
  /\ (In "index" ["index"; "sub/child"]
      /\ In "sub/child" ["index"; "sub/child"]
      /\ mem "index"
           (nodes_info
              (run [AddMetadata Scenario.rows; AddLinks Scenario.fs "/site"]
                   init)) = true
      /\ mem "sub/child"
           (nodes_info
              (run [AddMetadata Scenario.rows; AddLinks Scenario.fs "/site"]
                   init)) = true)
  /\ add_link
       (nodes_info
          (run [AddMetadata Scenario.rows; AddLinks Scenario.fs "/site"] init))
       "index" NX.empty ("missing-page", "Lost")
     = NX.empty.
Proof.
  split; [simpl; auto|].
  destruct (edge_endpoints_registered
              [AddMetadata Scenario.rows; AddLinks Scenario.fs "/site"]
              (mkEdge "index" "sub/child" "Go")
              (or_introl eq_refl)) as [Hends Hdrop].
  split; [exact Hends|].
  apply Hdrop. reflexivity.
Defined.

End EdgeEndpointsWitness.

(** ** One edge per ordered pair, last label kept *)

Section LastWriteWins.
Implicit Types (G : DiGraph) (known : dict Info).

Lemma last_label_app_last target text before after :
  ~ In target (map fst after) ->
  last_label target (before ++ (target, text) :: after)%list = Some text.
Proof.
  intros Hafter.
  assert (Hnone : last_label target after = None).
  { induction after as [|[t x] after IH]; simpl in *; [reflexivity|].
    rewrite IH by tauto.
    destruct (String.eqb_spec t target); [tauto | reflexivity]. }
  induction before as [|[t x] before IH]; simpl.
  - now rewrite Hnone, String.eqb_refl.
  - now rewrite IH.
Qed.

(** Links of one page leave alone the edges of other sources and the
    edges to targets they do not mention. *)
Lemma add_links_untouched known node_id links G u v :
  u <> node_id \/ last_label v links = None ->
  edge_data (fold_left (add_link known node_id) links G) u v
  = edge_data G u v.
Proof.
  revert G. induction links as [|[t x] links IH]; intros G H; simpl;
    [reflexivity|].
  assert (H' : u <> node_id \/ last_label v links = None).
  { destruct H as [H|H]; [now left|]. right. simpl in H.
    now destruct (last_label v links). }
  rewrite IH by exact H'.
  destruct (mem t known); [|reflexivity].
  apply edge_data_add_edge_other.
  destruct H as [H|H]; [now left|]. right. simpl in H.
  destruct (last_label v links); [discriminate|].
  destruct (String.eqb_spec t v); [discriminate | congruence].
Qed.

Lemma add_links_last_label known node_id links G target text :
  mem target known = true ->
  last_label target links = Some text ->
  exists dd,
    edge_data (fold_left (add_link known node_id) links G) node_id target
      = Some dd
    /\ get "relationship" dd = Some text.
Proof.
  intros Hknown. revert G.
  induction links as [|[t x] links IH]; intros G H; simpl in *;
    [discriminate|].
  destruct (last_label target links) as [l|] eqn:E.
  - apply IH. exact H.
  - destruct (String.eqb_spec t target) as [->|]; [|discriminate].
    injection H as ->.
    rewrite add_links_untouched by (right; exact E).
    rewrite Hknown. apply edge_data_add_edge_same.
Qed.

Lemma add_node_links_untouched fs root_dir known items G u v :
  (forall item, In item items -> fst item <> u) ->
  edge_data (fold_left (add_node_links fs root_dir known) items G) u v
  = edge_data G u v.
Proof.
  revert G. induction items as [|[k i] items IH]; intros G H; simpl;
    [reflexivity|].
  rewrite IH by (intros item Hi; apply H; now right).
  change (edge_data (add_node_links fs root_dir known G (k, i)) u v
          = edge_data G u v).
  rewrite add_node_links_unfold.
  destruct (source_file fs root_dir i); [|reflexivity].
  apply add_links_untouched. left.
  intros ->. now apply (H (k, i)); [left|].
Qed.

Lemma add_node_links_last_label fs root_dir known items G
  node_id info file target text :
  NoDup (keys items) ->
  In (node_id, info) items ->
  source_file fs root_dir info = Some file ->
  mem target known = true ->
  last_label target
    (extract_links_from_html file (info_relative_dir info)) = Some text ->
  exists dd,
    edge_data (fold_left (add_node_links fs root_dir known) items G)
      node_id target = Some dd
    /\ get "relationship" dd = Some text.
Proof.
  intros Hnd Hin Hfile Hknown Hlast. revert G.
  induction items as [|[k i] items IH]; intros G; [destruct Hin|].
  simpl in Hnd. inversion_clear Hnd as [|? ? Hk Hnd'].
  destruct Hin as [[= -> ->]|Hin].
  - cbn [fold_left]. rewrite add_node_links_untouched.
    + rewrite add_node_links_unfold, Hfile.
      now apply add_links_last_label.
    + intros [k' i'] Hi <-. apply Hk. eapply In_keys, Hi.
  - cbn [fold_left]. now apply IH.
Qed.

Lemma NoDup_edge_pairs G :
  wf G -> NoDup (map (fun e => (fst (fst e), snd (fst e))) (edges G)).
Proof.
  intros [Hk Hn]. induction G as [|[n nbrs] G IH]; simpl; [constructor|].
  simpl in Hk. inversion_clear Hk as [|? ? Hnotin Hk'].
  rewrite map_app, map_map. simpl.
  apply NoDup_app.
  - assert (Hnb : NoDup (keys nbrs)) by (eapply Hn; now left).
    clear - Hnb. induction nbrs as [|[nbr dd] nbrs IHn]; simpl;
      [constructor|].
    simpl in Hnb. inversion_clear Hnb as [|? ? Hx Hnb'].
    constructor; [|now apply IHn].
    intros Hin. apply in_map_iff in Hin as [[nbr' dd'] [[= ->] Hin]].
    apply Hx. eapply In_keys, Hin.
  - apply IH; [exact Hk'|]. intros m nb Hm. eapply Hn. right. exact Hm.
  - intros [s t] H1 H2.
    apply in_map_iff in H1 as [[nbr dd] [[= <- <-] _]].
    apply in_map_iff in H2 as [[[s' t'] d'] [[= -> ->] H2]].
    apply edges_In in H2 as [nb [H2 _]].
    apply Hnotin. eapply In_keys, H2.
Qed.

Lemma NoDup_exported_pairs (self : KnowledgeGraphGenerator) :
  wf (graph self) ->
  NoDup (map (fun e => (source e, target e)) (gd_edges (export_graph self))).
Proof.
  intros H. simpl. rewrite map_map.
  erewrite map_ext; [apply NoDup_edge_pairs, H|].
  now intros [[s t] d].
Qed.

End LastWriteWins.

Section EdgeStoreClaims.

Lemma NoDup_map_eq {A B} (f : A -> B) (l : list A) (a b : A) :
  NoDup (map f l) -> In a l -> In b l -> f a = f b -> a = b.
Proof.
  induction l as [|x l IH]; simpl; [tauto|].
  intros Hnd Ha Hb Hf. inversion_clear Hnd as [|? ? Hx Hnd'].
  destruct Ha as [->|Ha], Hb as [->|Hb]; auto.
  - elim Hx. rewrite Hf. now apply in_map.
  - elim Hx. rewrite <- Hf. now apply in_map.
Qed.

(** C5: the exported graph never holds two edges with the same ordered
    (source, target) pair; and when, during [add_links_to_graph], the
    links of a page name a known target more than once, the one edge
    from the page to that target carries the label of the last such
    link. *)
Theorem one_edge_per_pair_last_label
  (ops : list Op) (fs : FileSystem) (root_dir node_id tgt text : string)
  (info : Info) (file : HtmlFile) (before after : list (string * string))
  (Hnode : In (node_id, info) (nodes_info (run ops init)))
  (Hfile : source_file fs root_dir info = Some file)
  (Hlinks : extract_links_from_html file (info_relative_dir info)
            = (before ++ (tgt, text) :: after)%list)
  (Hlast : ~ In tgt (map fst after))
  (Hknown : mem tgt (nodes_info (run ops init)) = true) :
  let out := export_graph (add_links_to_graph (run ops init) fs root_dir) in
  NoDup (map (fun e => (source e, target e)) (gd_edges out))
  /\ In (mkEdge node_id tgt text) (gd_edges out)
  /\ (forall e, In e (gd_edges out) ->
                source e = node_id -> target e = tgt ->
                relationship e = text).
Proof.
  intros out.
  pose proof (consistent_run ops init consistent_init) as Hc.
  pose proof (consistent_add_links _ fs root_dir Hc) as (_ & Hwf & _).
  destruct Hc as (Hnd & _).
  assert (Hpairs :
            NoDup (map (fun e => (source e, target e)) (gd_edges out)))
    by now apply NoDup_exported_pairs.
  assert (Hin : In (mkEdge node_id tgt text) (gd_edges out)).
  { destruct (add_node_links_last_label fs root_dir
                (nodes_info (run ops init)) (nodes_info (run ops init))
                (graph (run ops init)) node_id info file tgt text
                Hnd Hnode Hfile Hknown) as [dd [Hd Hrel]].
    - rewrite Hlinks. now apply last_label_app_last.
    - apply edges_edge_data in Hd; [|exact Hwf].
      unfold out. simpl gd_edges.
      apply in_map_iff. exists (node_id, tgt, dd). rewrite Hrel. auto. }
  repeat split; [exact Hpairs | exact Hin |].
  intros e He Hs Ht.
  assert (e = mkEdge node_id tgt text) as ->; [|reflexivity].
  apply (NoDup_map_eq _ _ _ _ Hpairs He Hin). simpl. congruence.
Qed.

Lemma one_edge_per_pair_witness :
  NoDup (map (fun e => (source e, target e))
           (gd_edges (export_graph
              (add_links_to_graph (run [AddMetadata Scenario.rows] init)
                 Scenario.fs_twice "/site"))))
  /\ In (mkEdge "index" "sub/child" "Again")
        (gd_edges (export_graph
           (add_links_to_graph (run [AddMetadata Scenario.rows] init)
              Scenario.fs_twice "/site")))
  /\ (forall e,
         In e (gd_edges (export_graph
                 (add_links_to_graph (run [AddMetadata Scenario.rows] init)
                    Scenario.fs_twice "/site"))) ->
         source e = "index" -> target e = "sub/child" ->
         relationship e = "Again").
Proof.
  apply (one_edge_per_pair_last_label
           [AddMetadata Scenario.rows] Scenario.fs_twice "/site"
           "index" "sub/child" "Again" (mkInfo "" "index")
           (Page [("sub/child.html", "Go");
                  ("./sub/child.html#top", "Again")])
           [("sub/child", "Go")] []).
  - simpl. auto.
  - reflexivity.
  - reflexivity.
  - simpl. tauto.
  - reflexivity.
Defined.

End EdgeStoreClaims.

(** ** Node registration *)

Section NodeRegistration.
Implicit Types (G : DiGraph) (self : KnowledgeGraphGenerator).

Lemma graph_add_metadata self rows :
  graph (add_metadata_to_graph self rows)
  = fold_left add_node (map row_id rows) (graph self).
Proof.
  unfold add_metadata_to_graph. revert self.
  induction rows as [|r rows IH]; intros self; simpl; [reflexivity|].
  now rewrite IH.
Qed.

Lemma nodes_fold_add_node ids G n :
  In n (nodes (fold_left add_node ids G)) <-> In n ids \/ In n (nodes G).
Proof.
  revert G. induction ids as [|i ids IH]; intros G; simpl; [tauto|].
  rewrite IH, In_nodes_add_node. intuition congruence.
Qed.

Lemma NoDup_nodes_fold_add_node ids G :
  NoDup (nodes G) -> NoDup (nodes (fold_left add_node ids G)).
Proof.
  revert G. induction ids as [|i ids IH]; intros G H; simpl; [exact H|].
  apply IH. unfold add_node, nodes. destruct (mem i G); [exact H|].
  now apply NoDup_keys_set.
Qed.

Lemma nodes_add_links_mono self fs root_dir n :
  In n (nodes (graph self)) ->
  In n (nodes (graph (add_links_to_graph self fs root_dir))).
Proof.
  simpl. generalize (nodes_info self) at 1 as known.
  generalize (graph self) as G.
  induction (nodes_info self) as [|[k i] items IH]; intros G known H;
    cbn [fold_left]; [exact H|].
  apply IH. rewrite add_node_links_unfold.
  destruct (source_file fs root_dir i) as [file|]; [|exact H].
  revert G H.
  induction (extract_links_from_html file (info_relative_dir i))
    as [|[t x] links IHl]; intros G H; cbn [fold_left]; [exact H|].
  apply IHl. unfold add_link. destruct (mem t known); [|exact H].
  apply In_nodes_add_edge. auto.
Qed.

Lemma nodes_run_mono ops self n :
  In n (nodes (graph self)) -> In n (nodes (graph (run ops self))).
Proof.
  unfold run. revert self.
  induction ops as [|op ops IH]; intros self H; simpl; [exact H|].
  apply IH. destruct op; simpl.
  - rewrite graph_add_metadata. apply nodes_fold_add_node. now right.
  - now apply nodes_add_links_mono.
Qed.

End NodeRegistration.

Section NodeClaims.
Implicit Types (G : DiGraph) (self : KnowledgeGraphGenerator).

(** C6: every Page Identifier computed from a record that
    [add_metadata_to_graph] reads is a node of the graph that
    [export_graph] serializes afterwards, whatever calls come in
    between; in particular in the document [build_knowledge_graph]
    writes. *)
Theorem exported_nodes_cover_records
  (self : KnowledgeGraphGenerator) (rows : list PageRecord) (ops : list Op)
  (fs : FileSystem) (root_dir : string)
  (row : PageRecord) (Hrow : In row rows) :
  In (get_node_id (relative_dir row) (filename row))
     (gd_nodes (export_graph (run ops (add_metadata_to_graph self rows))))
  /\ In (get_node_id (relative_dir row) (filename row))
        (gd_nodes (fst (build_knowledge_graph fs root_dir rows))).
Proof.
  assert (H : forall s0, In (row_id row)
                (nodes (graph (add_metadata_to_graph s0 rows)))).
  { intros s0. rewrite graph_add_metadata. apply nodes_fold_add_node.
    left. now apply in_map. }
  split.
  - simpl. apply nodes_run_mono, H.
  - unfold build_knowledge_graph. simpl.
    apply (nodes_add_links_mono (add_metadata_to_graph init rows)), H.
Qed.

Lemma exported_nodes_cover_witness :
  In "sub/child"
     (gd_nodes (export_graph
        (run [AddLinks Scenario.fs "/site"]
             (add_metadata_to_graph init Scenario.rows))))
  /\ In "sub/child"
        (gd_nodes (fst (build_knowledge_graph Scenario.fs "/site"
                          Scenario.rows))).
Proof.
  apply (exported_nodes_cover_records init Scenario.rows
           [AddLinks Scenario.fs "/site"] Scenario.fs "/site"
           (mkPageRecord "sub" "child" "" "" "" "Child")).
  simpl. auto.
Defined.

(** C7: in any sequence of records, a record whose Page Identifier was
    already registered by an earlier record changes nothing in the
    graph: the nodes are those obtained without it, in the same order;
    and starting from the fresh generator no identifier is a node
    twice. *)
Theorem duplicate_registration_collapses
  (self : KnowledgeGraphGenerator) (rows1 rows2 rows3 : list PageRecord)
  (r r' : PageRecord)
  (Hid : get_node_id (relative_dir r') (filename r')
         = get_node_id (relative_dir r) (filename r)) :
  nodes (graph (add_metadata_to_graph self
                  (rows1 ++ r :: rows2 ++ r' :: rows3)%list))
  = nodes (graph (add_metadata_to_graph self
                    (rows1 ++ r :: rows2 ++ rows3)%list))
  /\ NoDup (nodes (graph (add_metadata_to_graph init
                            (rows1 ++ r :: rows2 ++ r' :: rows3)%list))).
Proof.
  split.
  - f_equal. rewrite !graph_add_metadata.
    change (r :: rows2 ++ r' :: rows3)%list
      with ((r :: rows2) ++ r' :: rows3)%list.
    change (r :: rows2 ++ rows3)%list with ((r :: rows2) ++ rows3)%list.
    rewrite !app_assoc, !map_app, !fold_left_app. cbn [map fold_left].
    f_equal. apply add_node_mem, mem_In_keys.
    fold (row_id r') (row_id r) in Hid. rewrite Hid.
    apply (nodes_fold_add_node (map row_id rows2)). right.
    apply In_nodes_add_node. now left.
  - rewrite graph_add_metadata. apply NoDup_nodes_fold_add_node. constructor.
Qed.

Lemma duplicate_registration_witness :
  nodes (graph (add_metadata_to_graph init
                  ([mkPageRecord "" "index" "" "" "" "Home"]
                   ++ mkPageRecord "a" "b/c" "" "" "" "One"
                   :: [mkPageRecord "sub" "child" "" "" "" "Child"]
                   ++ mkPageRecord "a/b" "c" "k" "" "" "Two" :: [])%list))
  = nodes (graph (add_metadata_to_graph init
                    ([mkPageRecord "" "index" "" "" "" "Home"]
                     ++ mkPageRecord "a" "b/c" "" "" "" "One"
                     :: [mkPageRecord "sub" "child" "" "" "" "Child"]
                     ++ [])%list))
  /\ NoDup (nodes (graph (add_metadata_to_graph init
                  ([mkPageRecord "" "index" "" "" "" "Home"]
                   ++ mkPageRecord "a" "b/c" "" "" "" "One"
                   :: [mkPageRecord "sub" "child" "" "" "" "Child"]
                   ++ mkPageRecord "a/b" "c" "k" "" "" "Two" :: [])%list))).
Proof.
  apply (duplicate_registration_collapses init
           [mkPageRecord "" "index" "" "" "" "Home"]
           [mkPageRecord "sub" "child" "" "" "" "Child"] []
           (mkPageRecord "a" "b/c" "" "" "" "One")
           (mkPageRecord "a/b" "c" "k" "" "" "Two")).
  reflexivity.
Defined.

End NodeClaims.

(** ** The metadata scanner *)

Section ScannerFacts.
Import Scanner.

Lemma relative_to_app (root rel : list string) :
  relative_to (root ++ rel)%list root = Some rel.
Proof.
  induction root as [|r root IH]; simpl.
  - now destruct rel.
  - now rewrite String.eqb_refl.
Qed.

Lemma relative_to_Some (file root rel : list string) :
  relative_to file root = Some rel -> file = (root ++ rel)%list.
Proof.
  revert file. induction root as [|r root IH]; intros [|f file]; simpl;
    try discriminate; try (now intros [= <-]).
  destruct (String.eqb_spec r f) as [->|]; [|discriminate].
  intros H. now rewrite (IH _ H).
Qed.

Variable resolve : string -> list string.
Variable get_metadata_from_html : string -> Metadata.

Lemma scan_file_relative_dir (root_dir root file : string) (row : PageRecord) :
  In row (scan_file resolve get_metadata_from_html root_dir root file) ->
  relative_dir row
  = get_relative_path resolve root_dir (PosixPath.join root [file]).
Proof.
  unfold scan_file.
  destruct (_ || _); simpl; [|tauto].
  now intros [<-|[]].
Qed.

(** C8: a file whose resolved path is the resolved root followed by its
    name alone gets the empty relative directory; one with directories
    in between gets those directories joined by slashes, the path of
    its parent relative to the root; so the record [scan_directory]
    builds for a root-level page has [relative_dir = ""]. *)
Theorem relative_dir_under_root
  (root_dir file_path name : string) (dirs : list string)
  (Hfile : resolve file_path = (resolve root_dir ++ dirs ++ [name])%list) :
  get_relative_path resolve root_dir file_path
  = match dirs with [] => "" | _ :: _ => PyStr.join "/" dirs end
  /\ (forall root file row,
         PosixPath.join root [file] = file_path ->
         In row (scan_file resolve get_metadata_from_html root_dir root file) ->
         relative_dir row
         = match dirs with [] => "" | _ :: _ => PyStr.join "/" dirs end).
Proof.
  assert (H : get_relative_path resolve root_dir file_path
              = match dirs with [] => "" | _ :: _ => PyStr.join "/" dirs end).
  { unfold get_relative_path. rewrite Hfile, relative_to_app.
    destruct dirs as [|d dirs]; [reflexivity|].
    rewrite length_app. simpl List.length.
    replace (S (List.length dirs) + 1 =? 1)%nat with false
      by (symmetry; apply Nat.eqb_neq; lia).
    unfold parent. rewrite removelast_last. reflexivity. }
  split; [exact H|].
  intros root file row <- Hrow.
  now rewrite (scan_file_relative_dir _ _ _ _ Hrow).
Qed.

(** C10: when the resolved file path does not extend the resolved root,
    [relative_to] raises, the error is swallowed and the relative
    directory is empty, exactly as for a page directly under the root:
    both get the bare file name as identifier. *)
Theorem outside_root_is_root_level
  (root_dir file_path : string)
  (Hout : forall rel, resolve file_path <> (resolve root_dir ++ rel)%list) :
  relative_to (resolve file_path) (resolve root_dir) = None
  /\ get_relative_path resolve root_dir file_path = ""
  /\ (forall inside name filename,
         resolve inside = (resolve root_dir ++ [name])%list ->
         get_node_id (get_relative_path resolve root_dir file_path) filename
         = get_node_id (get_relative_path resolve root_dir inside) filename).
Proof.
  assert (Hnone : relative_to (resolve file_path) (resolve root_dir) = None).
  { destruct (relative_to _ _) as [rel|] eqn:E; [|reflexivity].
    apply relative_to_Some in E. now elim (Hout rel). }
  assert (H : get_relative_path resolve root_dir file_path = "").
  { unfold get_relative_path. now rewrite Hnone. }
  repeat split; [exact Hnone | exact H |].
  intros inside name filename Hin. rewrite H.
  unfold get_relative_path. rewrite Hin, relative_to_app. reflexivity.
Qed.

Variable encode : string -> list Byte.byte.

(** C9, amended: with no HTML file found nothing is written and one
    fixed line, which shows no number, is printed; with at least one,
    the file receives, each passed through the codec of the file
    (cp1252, unencodable characters replaced), the quoted header row
    followed by one quoted row per record, and the number of records is
    printed. *)
Theorem scan_directory_output
  (root_dir : string) (walk : list (string * list string)) :
  let html_files := collect resolve get_metadata_from_html root_dir walk in
  let result :=
    scan_directory resolve get_metadata_from_html encode root_dir walk in
  match html_files with
  | [] =>
      written result = None
      /\ printed result = "Aucun fichier HTML trouvé."
      /\ has_digit (printed result) = false
  | _ :: _ =>
      written result
      = Some (encode (writerow fieldnames)
              ++ flat_map
                   (fun r =>
                      encode (PyStr.join ";" (map quote_field (record_fields r))
                              ++ lineterminator))
                   html_files)%list
      /\ printed result
         = "Scan terminé. " ++ str_of_nat (List.length html_files)
           ++ " fichiers HTML traités."
  end.
Proof.
  intros html_files result. unfold result, scan_directory.
  fold html_files. destruct html_files as [|r rs] eqn:E.
  - repeat split.
  - split; [|reflexivity].
    cbn [written]. f_equal. unfold writerows, writeheader.
    cbn [flat_map]. f_equal. now rewrite flat_map_concat_map, map_map,
      <- flat_map_concat_map.
Qed.

End ScannerFacts.

Section ScannerWitnesses.
Import Scanner.

Lemma relative_dir_under_root_witness :
  (get_relative_path resolve_plain "/site" "/site/index.html" = ""
   /\ forall root file row,
        PosixPath.join root [file] = "/site/index.html" ->
        In row (scan_file resolve_plain no_metadata "/site" root file) ->
        relative_dir row = "")
  /\ (get_relative_path resolve_plain "/site" "/site/sub/x/child.htm" = "sub/x"
      /\ forall root file row,
           PosixPath.join root [file] = "/site/sub/x/child.htm" ->
           In row (scan_file resolve_plain no_metadata "/site" root file) ->
           relative_dir row = "sub/x").
Proof.
  split.
  - apply (relative_dir_under_root resolve_plain no_metadata
             "/site" "/site/index.html" "index.html" []).
    reflexivity.
  - apply (relative_dir_under_root resolve_plain no_metadata
             "/site" "/site/sub/x/child.htm" "child.htm" ["sub"; "x"]).
    reflexivity.
Defined.

Lemma outside_root_witness :
  relative_to (resolve_plain "/other/index.html") (resolve_plain "/site") = None
  /\ get_relative_path resolve_plain "/site" "/other/index.html" = ""
  /\ (forall inside name filename,
         resolve_plain inside = (resolve_plain "/site" ++ [name])%list ->
         get_node_id
           (get_relative_path resolve_plain "/site" "/other/index.html")
           filename
         = get_node_id (get_relative_path resolve_plain "/site" inside)
             filename).
Proof.
  apply (outside_root_is_root_level resolve_plain "/site" "/other/index.html").
  intros rel H. simpl in H. discriminate H.
Defined.

(** C9 as stated fails: on an empty scan the printed line reports no
    count. *)
Lemma empty_scan_reports_no_count :
  ~ (forall (resolve : string -> list string)
            (get_metadata_from_html : string -> Metadata)
            (encode : string -> list Byte.byte)
            (root_dir : string) (walk : list (string * list string)),
        collect resolve get_metadata_from_html root_dir walk = [] ->
        written
          (scan_directory resolve get_metadata_from_html encode root_dir walk)
        = None
        /\ has_digit
             (printed
                (scan_directory resolve get_metadata_from_html encode
                   root_dir walk))
           = true).
Proof.
  intros H.
  destruct (H resolve_plain no_metadata cp1252_replace "/site"
              [("/site", ["notes.txt"])] eq_refl) as [_ Hd].
  discriminate Hd.
Qed.

(** The end-to-end scenario of the specification. *)
Example scenario_graph :
  build_knowledge_graph Scenario.fs "/site" Scenario.rows
  = ({| gd_nodes := ["index"; "sub/child"];
        gd_edges := [mkEdge "index" "sub/child" "Go";
                     mkEdge "sub/child" "index" "Back"] |},
     (2, 2)).
Proof. reflexivity. Qed.

Example scenario_scan :
  printed (scan_directory resolve_plain no_metadata cp1252_replace "/site"
             [("/site", ["index.html"; "style.css"]);
              ("/site/sub", ["child.HTM"])])
  = "Scan terminé. 2 fichiers HTML traités.".
Proof. reflexivity. Qed.

(** A file name outside cp1252 and a title with an arrow: each such
    character reaches the file as a question mark, while the accented
    letter of the description, which cp1252 has, is written as one
    byte. *)
Example scan_replaces_unencodable :
  written
    (scan_directory resolve_plain
       (fun _ => mkMetadata "" "café" "" "→ arrow")
       cp1252_replace "/site" [("/site", ["日本.html"])])
  = Some (list_byte_of_string (writerow fieldnames)
          ++ list_byte_of_string
               (String quotechar
                  (String quotechar
                     (";" ++ quote_field "??" ++ ";" ++ quote_field ""
                      ++ ";" ++ String quotechar "caf"))
               )
          ++ [Byte.xe9]
          ++ list_byte_of_string
               (String quotechar
                  (";" ++ quote_field "" ++ ";" ++ quote_field "? arrow"
                   ++ lineterminator)))%list.
Proof. vm_compute. reflexivity. Qed.

End ScannerWitnesses.


(* ================================================================== *)
(** * Further properties of the code *)

(** ** More on strings and paths *)

Section MoreStringFacts.

Lemma chars_app (a b : string) :
  list_ascii_of_string (a ++ b)
  = (list_ascii_of_string a ++ list_ascii_of_string b)%list.
Proof. induction a as [|c a IH]; simpl; [reflexivity | now rewrite IH]. Qed.

Lemma string_length_app (a b : string) :
  String.length (a ++ b) = (String.length a + String.length b)%nat.
Proof. induction a as [|c a IH]; simpl; [reflexivity | now rewrite IH]. Qed.

Lemma string_app_assoc (a b c : string) : (a ++ b) ++ c = a ++ b ++ c.
Proof. induction a as [|x a IH]; simpl; [reflexivity | now rewrite IH]. Qed.

Lemma string_app_nil_r (a : string) : a ++ "" = a.
Proof. induction a as [|x a IH]; simpl; [reflexivity | now rewrite IH]. Qed.

Lemma take_app_length (a b : string) : take (String.length a) (a ++ b) = a.
Proof. induction a as [|c a IH]; simpl; [now destruct b | now rewrite IH]. Qed.

Lemma drop_app_length (a b : string) : drop (String.length a) (a ++ b) = b.
Proof. induction a as [|c a IH]; simpl; [reflexivity | exact IH]. Qed.

Lemma take_drop (n : nat) (s : string) : take n s ++ drop n s = s.
Proof.
  revert s. induction n as [|n IH]; intros [|c s]; simpl; try reflexivity.
  now rewrite IH.
Qed.

Lemma rfind_from_app (c : ascii) (a b : string) (i last : Z) :
  rfind_from c (a ++ b) i last
  = rfind_from c b (i + Z.of_nat (String.length a))%Z (rfind_from c a i last).
Proof.
  revert i last. induction a as [|x a IH]; intros i last; simpl String.length.
  - simpl. now rewrite Z.add_0_r.
  - cbn [append rfind_from]. rewrite IH. f_equal. lia.
Qed.

Lemma rfind_from_absent (c : ascii) (s : string) (i last : Z) :
  ~ In c (list_ascii_of_string s) -> rfind_from c s i last = last.
Proof.
  revert i last. induction s as [|x s IH]; intros i last H; simpl in *;
    [reflexivity|].
  destruct (Ascii.eqb_spec x c) as [->|ne]; [tauto|].
  apply IH. tauto.
Qed.

Lemma rfind_from_lower_bound (c : ascii) (s : string) (i last : Z) :
  (last <= i -> last <= rfind_from c s i last)%Z.
Proof.
  revert i last. induction s as [|x s IH]; intros i last H; simpl; [lia|].
  destruct (Ascii.eqb x c).
  - specialize (IH (i + 1)%Z i). lia.
  - specialize (IH (i + 1)%Z last). lia.
Qed.

(** The last occurrence of [c] in [a ++ c :: b], when [b] has none. *)
Lemma rfind_last (c : ascii) (a b : string) :
  ~ In c (list_ascii_of_string b) ->
  rfind c (a ++ String c b) = Z.of_nat (String.length a).
Proof.
  intros H. unfold rfind. rewrite rfind_from_app. cbn [rfind_from].
  rewrite Ascii.eqb_refl. now rewrite rfind_from_absent.
Qed.

Lemma rfind_app_absent (c : ascii) (a b : string) :
  ~ In c (list_ascii_of_string b) -> rfind c (a ++ b) = rfind c a.
Proof.
  intros H. unfold rfind. rewrite rfind_from_app. now apply rfind_from_absent.
Qed.

Lemma all_dots_first (c : ascii) (s : string) :
  c <> "."%char -> PosixPath.all_dots (String c s) = false.
Proof.
  intros H. simpl. destruct (Ascii.eqb_spec c "."%char); [contradiction|].
  reflexivity.
Qed.

(** [splitext] on a path whose last component is a dot-free name followed
    by one dot-free extension: the directory part [q] is empty or ends
    with a slash. *)
Lemma splitext_name_ext (q f e : string) :
  q = "" \/ (exists q', q = q' ++ "/") ->
  f <> "" ->
  ~ In "."%char (list_ascii_of_string f) ->
  ~ In "/"%char (list_ascii_of_string f) ->
  ~ In "."%char (list_ascii_of_string e) ->
  ~ In "/"%char (list_ascii_of_string e) ->
  PosixPath.splitext (q ++ f ++ "." ++ e) = (q ++ f, "." ++ e).
Proof.
  intros Hq Hf Hfd Hfs Hed Hes.
  assert (Hsep : (rfind "/"%char (q ++ f ++ "." ++ e) + 1
                  = Z.of_nat (String.length q))%Z).
  { rewrite rfind_app_absent.
    - destruct Hq as [->|[q' ->]]; [reflexivity|].
      rewrite rfind_last by (simpl; tauto).
      rewrite string_length_app. simpl. lia.
    - rewrite chars_app. simpl. rewrite in_app_iff. simpl.
      intros [H|[H|H]]; [tauto | discriminate | tauto]. }
  assert (Hdot : rfind "."%char (q ++ f ++ "." ++ e)
                 = Z.of_nat (String.length (q ++ f))).
  { rewrite <- string_app_assoc. now apply rfind_last. }
  unfold PosixPath.splitext.
  replace (rfind "/"%char (q ++ f ++ "." ++ e))
    with (Z.of_nat (String.length q) - 1)%Z by lia.
  rewrite Hdot.
  replace (Z.of_nat (String.length q) - 1 <? Z.of_nat (String.length (q ++ f)))%Z
    with true by (symmetry; apply Z.ltb_lt; rewrite string_length_app; lia).
  replace (Z.of_nat (String.length q) - 1 + 1)%Z
    with (Z.of_nat (String.length q)) by lia.
  rewrite !Nat2Z.id.
  rewrite drop_app_length.
  replace (String.length (q ++ f) - String.length q)%nat
    with (String.length f) by (rewrite string_length_app; lia).
  rewrite take_app_length.
  destruct f as [|c f]; [contradiction|].
  rewrite all_dots_first by (intros ->; apply Hfd; now left).
  rewrite <- string_app_assoc.
  now rewrite take_app_length, drop_app_length.
Qed.

(** A prefix without [#] that matches up to a fragment matches before it. *)
Lemma prefix_before_fragment (p h rest : string) :
  p <> "" ->
  ~ In "#"%char (list_ascii_of_string p) ->
  String.prefix p (h ++ String "#"%char rest) = true ->
  String.prefix p h = true.
Proof.
  revert h. induction p as [|a p IH]; intros h Hne Hp H; [contradiction|].
  destruct h as [|b h]; simpl in H |- *.
  - destruct (ascii_dec a "#"%char) as [->|]; [|discriminate].
    elim Hp. now left.
  - destruct (ascii_dec a b) as [->|]; [|discriminate].
    destruct p as [|a' p]; [now destruct h|].
    apply IH; [discriminate | | exact H].
    intros Hin. apply Hp. now right.
Qed.

Lemma prefix_chars (p s : string) (c : ascii) :
  String.prefix p s = true ->
  In c (list_ascii_of_string p) -> In c (list_ascii_of_string s).
Proof.
  intros H Hc. apply prefix_split in H as [rest ->].
  rewrite chars_app. apply in_or_app. now left.
Qed.

End MoreStringFacts.

(** ** Identifiers and links *)

Section IdentifierFacts.

Lemma slash_join_inj (d d' f f' : string) :
  ~ In "/"%char (list_ascii_of_string f) ->
  ~ In "/"%char (list_ascii_of_string f') ->
  d ++ "/" ++ f = d' ++ "/" ++ f' -> d = d' /\ f = f'.
Proof.
  intros Hf Hf'. revert d'.
  induction d as [|c d IH]; intros [|c' d']; simpl; intros H.
  - injection H as ->. auto.
  - injection H as <- ->. elim Hf. rewrite chars_app. apply in_or_app.
    right. now left.
  - injection H as -> <-. elim Hf'. rewrite chars_app. apply in_or_app.
    right. now left.
  - injection H as -> H. destruct (IH _ H) as [-> ->]. auto.
Qed.

(** X1: as long as file names hold no slash (none does on disk), two records
    get the same Page Identifier only if they agree on both the relative
    directory and the file name. *)
Theorem node_id_injective (d d' f f' : string)
  (Hf : ~ In "/"%char (list_ascii_of_string f))
  (Hf' : ~ In "/"%char (list_ascii_of_string f'))
  (Hid : get_node_id d f = get_node_id d' f') :
  d = d' /\ f = f'.
Proof.
  unfold get_node_id in Hid.
  destruct (String.eqb_spec d "") as [->|Hd],
           (String.eqb_spec d' "") as [->|Hd'].
  - auto.
  - subst f. elim Hf. rewrite chars_app. apply in_or_app. right. now left.
  - subst f'. elim Hf'. rewrite chars_app. apply in_or_app. right. now left.
  - now apply slash_join_inj.
Qed.

Lemma node_id_injective_witness : "sub" = "sub" /\ "child" = "child".
Proof.
  apply (node_id_injective "sub" "sub" "child" "child").
  - simpl. intuition discriminate.
  - simpl. intuition discriminate.
  - reflexivity.
Defined.

Lemma join2_node_id (d f : string) :
  endswith "/" d = false -> startswith "/" f = false ->
  PosixPath.join d [f] = get_node_id d f.
Proof.
  intros Hd Hf. unfold PosixPath.join, PosixPath.join2, get_node_id. simpl.
  rewrite Hf, Hd. rewrite orb_false_r.
  destruct (String.eqb_spec d "") as [->|]; reflexivity.
Qed.

Lemma not_rejected_plain (h : string) :
  ~ In ":"%char (list_ascii_of_string h) ->
  ~ In "#"%char (list_ascii_of_string h) ->
  startswith_any rejected_prefixes h = false.
Proof.
  intros Hc Hh. apply not_true_is_false. intros H.
  apply existsb_exists in H as [p [Hin Hp]]. unfold startswith in Hp.
  simpl in Hin.
  destruct Hin as [<-|[<-|[<-|[<-|[<-|[]]]]]];
    try (apply Hc; apply (prefix_chars _ _ _ Hp); simpl; tauto).
  apply Hh; apply (prefix_chars _ _ _ Hp); simpl; tauto.
Qed.

Lemma not_rejected_with_fragment (h frag : string) :
  h <> "" ->
  ~ In ":"%char (list_ascii_of_string h) ->
  ~ In "#"%char (list_ascii_of_string h) ->
  startswith_any rejected_prefixes (h ++ String "#"%char frag) = false.
Proof.
  intros Hne Hc Hh. apply not_true_is_false. intros H.
  apply existsb_exists in H as [p [Hin Hp]]. unfold startswith in Hp.
  simpl in Hin.
  destruct Hin as [<-|[<-|[<-|[<-|[<-|[]]]]]];
    try (apply prefix_before_fragment in Hp;
         [ apply Hc; apply (prefix_chars _ _ _ Hp); simpl; tauto
         | discriminate
         | simpl; intuition discriminate ]).
  destruct h as [|c h]; [contradiction|]. cbn [String.prefix append] in Hp.
  destruct (ascii_dec "#"%char c) as [<-|]; [|discriminate].
  apply Hh. now left.
Qed.

Lemma normalize_path_clean (cd href : string) :
  startswith_any rejected_prefixes href = false ->
  normalize_path cd href
  = resolve cd (strip_extension (strip_fragment href)).
Proof. unfold normalize_path. now intros ->. Qed.

Lemma resolve_plain_name (d f : string) :
  endswith "/" d = false ->
  f <> "" ->
  ~ In "."%char (list_ascii_of_string f) ->
  ~ In "/"%char (list_ascii_of_string f) ->
  resolve d f = Some (get_node_id d f).
Proof.
  intros Hd Hne Hdot Hsl. destruct f as [|c f]; [contradiction|].
  assert (c <> "."%char) by (intros ->; apply Hdot; now left).
  assert (c <> "/"%char) by (intros ->; apply Hsl; now left).
  assert (Hs : startswith "/" (String c f) = false).
  { unfold startswith. cbn [String.prefix].
    destruct (ascii_dec "/"%char c); [congruence | reflexivity]. }
  unfold resolve, startswith. cbn [String.prefix].
  destruct (ascii_dec "."%char c); [congruence|].
  f_equal. now apply join2_node_id.
Qed.

(** X2: a link to a page of the same directory, written as the page's file
    name ([name.ext], with or without a leading [./] or a trailing
    fragment), resolves to the Page Identifier [get_node_id] gives that
    page. *)
Theorem sibling_link_resolves_to_node_id (d f e frag : string)
  (Hd : endswith "/" d = false)
  (Hf : f <> "")
  (Hfc : forall c, In c (list_ascii_of_string f) ->
                   ~ In c ["."; "/"; "#"; ":"]%char)
  (Hec : forall c, In c (list_ascii_of_string e) ->
                   ~ In c ["."; "/"; "#"; ":"]%char) :
  normalize_path d (f ++ "." ++ e) = Some (get_node_id d f)
  /\ normalize_path d ("./" ++ f ++ "." ++ e) = Some (get_node_id d f)
  /\ normalize_path d (f ++ "." ++ e ++ "#" ++ frag) = Some (get_node_id d f).
Proof.
  assert (Hno : forall c, In c ["."; "/"; "#"; ":"]%char ->
                  ~ In c (list_ascii_of_string f)
                  /\ ~ In c (list_ascii_of_string e)).
  { intros c Hc. split; intros Hin; [eapply Hfc | eapply Hec]; eauto. }
  destruct (Hno "."%char) as [Hfd Hed]; [simpl; tauto|].
  destruct (Hno "/"%char) as [Hfs Hes]; [simpl; tauto|].
  destruct (Hno "#"%char) as [Hfh Heh]; [simpl; tauto|].
  destruct (Hno ":"%char) as [Hfk Hek]; [simpl; tauto|].
  assert (Hchars : forall c, c <> "."%char ->
                     ~ In c (list_ascii_of_string f) ->
                     ~ In c (list_ascii_of_string e) ->
                     ~ In c (list_ascii_of_string (f ++ "." ++ e))).
  { intros c Hc H1 H2. rewrite chars_app. simpl. rewrite in_app_iff. simpl.
    intros [H|[H|H]]; [tauto | congruence | tauto]. }
  assert (Hext : strip_extension (f ++ "." ++ e) = f).
  { unfold strip_extension.
    change (f ++ "." ++ e) with ("" ++ f ++ "." ++ e).
    rewrite splitext_name_ext; auto. }
  assert (Hres : resolve d f = Some (get_node_id d f))
    by now apply resolve_plain_name.
  split; [|split].
  - rewrite normalize_path_clean
      by (apply not_rejected_plain; apply Hchars; auto; discriminate).
    unfold strip_fragment.
    rewrite split_absent by (apply Hchars; auto; discriminate).
    cbn [hd]. now rewrite Hext.
  - rewrite normalize_path_clean by reflexivity.
    assert (Hfrag : strip_fragment ("./" ++ f ++ "." ++ e)
                    = "./" ++ f ++ "." ++ e).
    { unfold strip_fragment. rewrite split_absent; [reflexivity|].
      change ("./" ++ f ++ "." ++ e)
        with (String "."%char (String "/"%char (f ++ "." ++ e))).
      cbn [list_ascii_of_string In].
      intros [H|[H|H]]; [discriminate | discriminate |].
      revert H. apply Hchars; auto; discriminate. }
    rewrite Hfrag. unfold strip_extension.
    rewrite splitext_name_ext; auto; [|right; now exists "."].
    cbn [fst]. unfold resolve.
    change (startswith "../" ("./" ++ f)) with false.
    change (startswith "./" ("./" ++ f)) with (String.prefix "" f).
    replace (String.prefix "" f) with true by now destruct f.
    change (drop 2 ("./" ++ f)) with f.
    f_equal. apply join2_node_id; [exact Hd|].
    destruct f as [|c f]; [contradiction|]. unfold startswith.
    cbn [String.prefix].
    destruct (ascii_dec "/"%char c) as [<-|]; [|reflexivity].
    elim Hfs. now left.
  - replace (f ++ "." ++ e ++ "#" ++ frag)
      with ((f ++ "." ++ e) ++ String "#"%char frag)
      by (now rewrite !string_app_assoc).
    rewrite normalize_path_clean.
    + unfold strip_fragment.
      rewrite split_hd_app by (apply Hchars; auto; discriminate).
      now rewrite Hext.
    + apply not_rejected_with_fragment;
        [ destruct f; [contradiction | discriminate]
        | apply Hchars; auto; discriminate
        | apply Hchars; auto; discriminate ].
Qed.

Lemma sibling_link_witness :
  normalize_path "guide/api" ("intro" ++ "." ++ "html")
    = Some (get_node_id "guide/api" "intro")
  /\ normalize_path "guide/api" ("./" ++ "intro" ++ "." ++ "html")
     = Some (get_node_id "guide/api" "intro")
  /\ normalize_path "guide/api" ("intro" ++ "." ++ "html" ++ "#" ++ "top")
     = Some (get_node_id "guide/api" "intro").
Proof.
  apply (sibling_link_resolves_to_node_id "guide/api" "intro" "html" "top").
  - reflexivity.
  - discriminate.
  - simpl. intuition (subst; discriminate).
  - simpl. intuition (subst; discriminate).
Defined.

End IdentifierFacts.

Section AbsoluteLinks.

Lemma strip_fragment_slash (t : string) :
  exists t', strip_fragment (String "/"%char t) = String "/"%char t'.
Proof.
  unfold strip_fragment. cbn [split].
  change (Ascii.eqb "/"%char "#"%char) with false. cbv iota.
  destruct (split "#"%char t); cbn [hd]; eauto.
Qed.

Lemma strip_extension_slash (t : string) :
  exists t', strip_extension (String "/"%char t) = String "/"%char t'.
Proof.
  unfold strip_extension, PosixPath.splitext.
  set (p := String "/"%char t).
  assert (Hsep : (0 <= rfind "/"%char p)%Z).
  { unfold rfind, p. cbn [rfind_from]. rewrite Ascii.eqb_refl.
    apply rfind_from_lower_bound. lia. }
  destruct (rfind "/"%char p <? rfind "."%char p)%Z eqn:E;
    [|cbn [fst]; unfold p; eauto].
  destruct (PosixPath.all_dots _); cbn [fst]; [unfold p; eauto|].
  apply Z.ltb_lt in E.
  destruct (Z.to_nat (rfind "."%char p)) as [|d] eqn:Ed; [lia|].
  unfold p. cbn [take]. eauto.
Qed.

(** X4: an href that begins with a slash is taken as it is, fragment and
    extension removed: the current directory plays no part, and the
    resulting identifier keeps its leading slash. *)
Theorem absolute_href_ignores_current_dir (current_dir t : string) :
  normalize_path current_dir ("/" ++ t)
  = Some (strip_extension (strip_fragment ("/" ++ t)))
  /\ startswith "/" (strip_extension (strip_fragment ("/" ++ t))) = true.
Proof.
  change ("/" ++ t) with (String "/"%char t).
  destruct (strip_fragment_slash t) as [t1 H1].
  destruct (strip_extension_slash t1) as [t2 H2].
  rewrite normalize_path_clean by reflexivity.
  rewrite H1, H2. split.
  - unfold resolve. now destruct t2.
  - unfold startswith. now destruct t2.
Qed.

End AbsoluteLinks.

Section LinkExtraction.

(** X6: the links of a page are exactly the anchors whose href resolves to a
    non-empty identifier, each with the anchor's text; there are never
    more links than anchors, and an unreadable file has none. *)
Theorem extracted_links_characterised
  (anchors : list (string * string)) (current_dir : string) :
  (forall t text,
      In (t, text) (extract_links_from_html (Page anchors) current_dir)
      <-> t <> ""
          /\ exists href, In (href, text) anchors
                          /\ normalize_path current_dir href = Some t)
  /\ (List.length (extract_links_from_html (Page anchors) current_dir)
      <= List.length anchors)%nat
  /\ extract_links_from_html Unreadable current_dir = [].
Proof.
  split; [|split; [|reflexivity]].
  - intros t text. cbn [extract_links_from_html]. rewrite in_flat_map. split.
    + intros [[href x] [Hin H]].
      destruct (normalize_path current_dir href) as [n|] eqn:E; [|destruct H].
      destruct (String.eqb_spec n "") as [->|ne]; [destruct H|].
      destruct H as [[= -> ->]|[]]. split; [exact ne | eauto].
    + intros [ne [href [Hin E]]]. exists (href, text). split; [exact Hin|].
      rewrite E. destruct (String.eqb_spec t ""); [contradiction | now left].
  - cbn [extract_links_from_html].
    induction anchors as [|[href x] anchors IH]; simpl; [lia|].
    rewrite length_app.
    destruct (normalize_path current_dir href) as [n|]; simpl; [|lia].
    destruct (String.eqb n ""); simpl; lia.
Qed.

End LinkExtraction.

(** ** The generator: known pages and nodes *)

Section KnownPages.
Implicit Types (G : DiGraph) (known : dict Info) (self : KnowledgeGraphGenerator).

Lemma nodes_info_add_metadata self rows :
  nodes_info (add_metadata_to_graph self rows)
  = fold_left
      (fun d r => set (row_id r) (mkInfo (relative_dir r) (filename r)) d)
      rows (nodes_info self).
Proof.
  unfold add_metadata_to_graph. revert self.
  induction rows as [|r rows IH]; intros self; simpl; [reflexivity|].
  now rewrite IH.
Qed.

Lemma get_fold_set_other (rows : list PageRecord) (d : dict Info) (k : string) :
  (forall r, In r rows -> row_id r <> k) ->
  get k (fold_left
           (fun d r => set (row_id r) (mkInfo (relative_dir r) (filename r)) d)
           rows d)
  = get k d.
Proof.
  revert d. induction rows as [|r rows IH]; intros d H; simpl; [reflexivity|].
  rewrite IH by (intros r' Hr'; apply H; now right).
  apply get_set_ne. apply H. now left.
Qed.

(** X7: after [add_metadata_to_graph], [nodes_info] maps an identifier to the
    directory and file name of the last record that has it; an identifier
    no record has is not a key of a fresh generator's [nodes_info]. *)
Theorem known_page_is_last_record
  (self : KnowledgeGraphGenerator) (before after : list PageRecord)
  (r : PageRecord)
  (Hlast : forall r', In r' after ->
             get_node_id (relative_dir r') (filename r')
             <> get_node_id (relative_dir r) (filename r)) :
  get (get_node_id (relative_dir r) (filename r))
      (nodes_info (add_metadata_to_graph self (before ++ r :: after)%list))
  = Some {| info_relative_dir := relative_dir r;
            info_filename := filename r |}
  /\ (forall k,
         (forall r', In r' (before ++ r :: after)%list ->
                     get_node_id (relative_dir r') (filename r') <> k) ->
         mem k (nodes_info
                  (add_metadata_to_graph init (before ++ r :: after)%list))
         = false).
Proof.
  split.
  - rewrite nodes_info_add_metadata, fold_left_app. cbn [fold_left].
    rewrite get_fold_set_other by exact Hlast.
    apply get_set_same.
  - intros k Hk. unfold mem.
    rewrite nodes_info_add_metadata, get_fold_set_other by exact Hk.
    reflexivity.
Qed.

Lemma known_page_witness :
  get (get_node_id "a" "b/c")
      (nodes_info
         (add_metadata_to_graph init
            ([mkPageRecord "a/b" "c" "" "" "" "One"]
             ++ mkPageRecord "a" "b/c" "" "" "" "Two"
             :: [mkPageRecord "" "index" "" "" "" "Home"])%list))
  = Some {| info_relative_dir := "a"; info_filename := "b/c" |}
  /\ (forall k,
         (forall r',
             In r' ([mkPageRecord "a/b" "c" "" "" "" "One"]
                    ++ mkPageRecord "a" "b/c" "" "" "" "Two"
                    :: [mkPageRecord "" "index" "" "" "" "Home"])%list ->
             get_node_id (relative_dir r') (filename r') <> k) ->
         mem k (nodes_info
                  (add_metadata_to_graph init
                     ([mkPageRecord "a/b" "c" "" "" "" "One"]
                      ++ mkPageRecord "a" "b/c" "" "" "" "Two"
                      :: [mkPageRecord "" "index" "" "" "" "Home"])%list))
         = false).
Proof.
  apply (known_page_is_last_record init
           [mkPageRecord "a/b" "c" "" "" "" "One"]
           [mkPageRecord "" "index" "" "" "" "Home"]
           (mkPageRecord "a" "b/c" "" "" "" "Two")).
  intros r' [<-|[]]. discriminate.
Defined.

Lemma mem_same_keys {A B} (d : dict A) (d' : dict B) (k : string) :
  keys d = keys d' -> mem k d = mem k d'.
Proof.
  intros H. destruct (mem k d) eqn:E, (mem k d') eqn:E'; try reflexivity.
  - apply mem_In_keys in E. rewrite H in E. apply mem_In_keys in E.
    congruence.
  - apply mem_In_keys in E'. rewrite <- H in E'. apply mem_In_keys in E'.
    congruence.
Qed.

Lemma nodes_add_node_set G known id info :
  nodes G = keys known ->
  nodes (add_node G id) = keys (set id info known).
Proof.
  intros H. unfold add_node, nodes in *.
  rewrite (mem_same_keys G known id H).
  destruct (mem id known) eqn:E.
  - now rewrite keys_set_mem.
  - rewrite !keys_set_new; [now rewrite H | exact E |].
    now rewrite (mem_same_keys G known id H).
Qed.

Lemma nodes_add_edge_present G u v rel :
  In u (nodes G) -> In v (nodes G) -> nodes (add_edge G u v rel) = nodes G.
Proof.
  intros Hu Hv. apply mem_In_keys in Hu, Hv.
  unfold add_edge. rewrite (add_node_mem G u Hu), (add_node_mem G v Hv).
  unfold mem in Hu. destruct (get u G) as [nbrs|] eqn:E; [|discriminate].
  unfold nodes. apply keys_set_mem. unfold mem. now rewrite E.
Qed.

Lemma nodes_add_links_closed known node_id links G :
  mem node_id known = true ->
  closed known G ->
  nodes (fold_left (add_link known node_id) links G) = nodes G.
Proof.
  intros Hsrc. revert G.
  induction links as [|[t x] links IH]; intros G H; cbn [fold_left];
    [reflexivity|].
  rewrite IH by now apply closed_add_link.
  unfold add_link. destruct (mem t known) eqn:Et; [|reflexivity].
  destruct H as (_ & Hnodes & _).
  apply nodes_add_edge_present; now apply Hnodes.
Qed.

Lemma nodes_fold_items_closed fs root_dir known items G :
  (forall item, In item items -> mem (fst item) known = true) ->
  closed known G ->
  nodes (fold_left (add_node_links fs root_dir known) items G) = nodes G.
Proof.
  revert G. induction items as [|[k i] items IH]; intros G Hitems H;
    cbn [fold_left]; [reflexivity|].
  assert (Hk : mem k known = true) by (apply (Hitems (k, i)); now left).
  rewrite IH.
  - rewrite add_node_links_unfold.
    destruct (source_file fs root_dir i); [|reflexivity].
    now apply nodes_add_links_closed.
  - intros item Hi. apply Hitems. now right.
  - now apply closed_add_node_links.
Qed.

Lemma nodes_add_links_consistent self fs root_dir :
  consistent self ->
  nodes (graph (add_links_to_graph self fs root_dir)) = nodes (graph self).
Proof.
  intros [_ H]. cbn [add_links_to_graph graph].
  apply nodes_fold_items_closed; [|exact H].
  intros [k i] Hi. eapply In_mem, Hi.
Qed.

Lemma nodes_keys_run ops self :
  consistent self ->
  nodes (graph self) = keys (nodes_info self) ->
  nodes (graph (run ops self)) = keys (nodes_info (run ops self)).
Proof.
  unfold run. revert self.
  induction ops as [|op ops IH]; intros self Hc H; cbn [fold_left]; [exact H|].
  apply IH.
  - destruct op; cbn [step];
      [now apply consistent_add_metadata | now apply consistent_add_links].
  - destruct op as [rows|fs root_dir]; cbn [step].
    + clear Hc IH. unfold add_metadata_to_graph. revert self H.
      induction rows as [|r rows IHr]; intros self H; cbn [fold_left];
        [exact H|].
      apply IHr. unfold add_row. cbn [graph nodes_info].
      now apply nodes_add_node_set.
    + rewrite nodes_add_links_consistent by exact Hc. exact H.
Qed.

(** X8: after any sequence of calls on a fresh generator the nodes of the
    graph are the keys of [nodes_info], in the same order; and
    [add_links_to_graph] never adds a node. *)
Theorem nodes_are_the_known_identifiers
  (ops : list Op) (fs : FileSystem) (root_dir : string) :
  nodes (graph (run ops init)) = keys (nodes_info (run ops init))
  /\ nodes (graph (add_links_to_graph (run ops init) fs root_dir))
     = nodes (graph (run ops init)).
Proof.
  split.
  - apply nodes_keys_run; [apply consistent_init | reflexivity].
  - apply nodes_add_links_consistent, consistent_run, consistent_init.
Qed.

End KnownPages.

(** ** The generator: what the exported graph holds *)

Section ExportedGraph.
Implicit Types (G : DiGraph) (known : dict Info) (self : KnowledgeGraphGenerator).

(** X9: the document [build_knowledge_graph] writes has exactly the Page
    Identifiers of the records as nodes, none of them twice, and the two
    numbers it returns are the lengths of the node and edge lists
    written. *)
Theorem build_knowledge_graph_nodes
  (fs : FileSystem) (root_dir : string) (rows : list PageRecord) :
  let out := build_knowledge_graph fs root_dir rows in
  NoDup (gd_nodes (fst out))
  /\ (forall n, In n (gd_nodes (fst out))
                <-> exists row, In row rows
                                /\ get_node_id (relative_dir row) (filename row)
                                   = n)
  /\ snd out = (List.length (gd_nodes (fst out)),
                List.length (gd_edges (fst out))).
Proof.
  intros out.
  assert (Hn : gd_nodes (fst out)
               = nodes (fold_left add_node (map row_id rows) NX.empty)).
  { unfold out, build_knowledge_graph. cbn [fst export_graph gd_nodes].
    rewrite nodes_add_links_consistent
      by (apply consistent_add_metadata, consistent_init).
    now rewrite graph_add_metadata. }
  split; [|split].
  - rewrite Hn. apply NoDup_nodes_fold_add_node. constructor.
  - intros n. rewrite Hn, nodes_fold_add_node, in_map_iff.
    split.
    + intros [[row [E Hin]]|[]]. exists row. auto.
    + intros [row [Hin E]]. left. exists row. auto.
  - unfold out, build_knowledge_graph.
    cbn [snd fst export_graph gd_nodes gd_edges].
    unfold number_of_nodes, number_of_edges. now rewrite length_map.
Qed.

(** X11: a graph built by any sequence of calls on a fresh generator has at
    most as many edges as ordered pairs of nodes. *)
Theorem edge_count_bound (ops : list Op) :
  (number_of_edges (graph (run ops init))
   <= number_of_nodes (graph (run ops init))
      * number_of_nodes (graph (run ops init)))%nat.
Proof.
  destruct (consistent_run ops init consistent_init)
    as (_ & Hwf & Hnodes & Hedges).
  set (G := graph (run ops init)) in *.
  unfold number_of_edges, number_of_nodes.
  rewrite <- length_prod.
  rewrite <- (length_map (fun e => (fst (fst e), snd (fst e))) (edges G)).
  apply NoDup_incl_length; [now apply NoDup_edge_pairs|].
  intros [s t] Hin. apply in_map_iff in Hin as [[[s' t'] d] [[= -> ->] Hin]].
  destruct (Hedges _ _ _ Hin) as [Hs Ht].
  apply in_prod; now apply Hnodes.
Qed.

Lemma fold_items_without_files fs root_dir known items G :
  (forall node_id info, In (node_id, info) items ->
                        source_file fs root_dir info = None) ->
  fold_left (add_node_links fs root_dir known) items G = G.
Proof.
  revert G. induction items as [|[k i] items IH]; intros G H; cbn [fold_left];
    [reflexivity|].
  rewrite IH by (intros n info Hin; apply (H n); now right).
  rewrite add_node_links_unfold. now rewrite (H k i) by now left.
Qed.

(** X12: when no known page has a source file on disk, neither [.html] nor
    [.htm], [add_links_to_graph] changes nothing and raises nothing. *)
Theorem no_source_files_no_change
  (self : KnowledgeGraphGenerator) (fs : FileSystem) (root_dir : string)
  (Hnone : forall node_id info,
      In (node_id, info) (nodes_info self) ->
      fs (PosixPath.join root_dir
            [info_relative_dir info; info_filename info ++ ".html"]) = None
      /\ fs (PosixPath.join root_dir
               [info_relative_dir info; info_filename info ++ ".htm"]) = None) :
  add_links_to_graph self fs root_dir = self.
Proof.
  destruct self as [G known]. unfold add_links_to_graph.
  cbn [graph nodes_info] in *. f_equal.
  apply fold_items_without_files. intros n info Hin.
  destruct (Hnone n info Hin) as [H1 H2].
  unfold source_file. now rewrite H1.
Qed.

Lemma no_source_files_witness :
  add_links_to_graph (add_metadata_to_graph init Scenario.rows)
    (fun _ => None) "/site"
  = add_metadata_to_graph init Scenario.rows.
Proof.
  apply (no_source_files_no_change
           (add_metadata_to_graph init Scenario.rows) (fun _ => None) "/site").
  intros node_id info _. split; reflexivity.
Defined.

End ExportedGraph.

(** ** The generator: edges and anchors *)

Section EdgeProvenance.
Implicit Types (G : DiGraph) (known : dict Info).

Variable B : string * string * datadict -> Prop.

Lemma backed_add_links known node_id links G :
  wf G ->
  (forall e, In e (edges G) -> B e) ->
  (forall t text d,
      In (t, text) links -> mem t known = true ->
      get "relationship" d = Some text -> B (node_id, t, d)) ->
  wf (fold_left (add_link known node_id) links G)
  /\ (forall e, In e (edges (fold_left (add_link known node_id) links G)) ->
                B e).
Proof.
  revert G. induction links as [|[t x] links IH]; intros G Hwf HG Hl;
    cbn [fold_left]; [now split|].
  apply IH.
  - unfold add_link. destruct (mem t known); [now apply wf_add_edge | exact Hwf].
  - intros [[s t'] d] He. unfold add_link in He.
    destruct (mem t known) eqn:Et; [|now apply HG].
    apply edges_add_edge_inv in He as [(-> & -> & Hrel)|He];
      [ | now apply HG | exact Hwf].
    apply (Hl t x d); [now left | exact Et | exact Hrel].
  - intros t' text d Hin. apply Hl. now right.
Qed.

Lemma backed_fold_items fs root_dir known items G :
  wf G ->
  (forall e, In e (edges G) -> B e) ->
  (forall node_id info file t text d,
      In (node_id, info) items ->
      source_file fs root_dir info = Some file ->
      In (t, text) (extract_links_from_html file (info_relative_dir info)) ->
      mem t known = true ->
      get "relationship" d = Some text -> B (node_id, t, d)) ->
  forall e,
    In e (edges (fold_left (add_node_links fs root_dir known) items G)) -> B e.
Proof.
  revert G. induction items as [|[k i] items IH]; intros G Hwf HG Hl;
    cbn [fold_left]; [exact HG|].
  rewrite add_node_links_unfold.
  destruct (source_file fs root_dir i) as [file|] eqn:Ef.
  - destruct (backed_add_links known k
                (extract_links_from_html file (info_relative_dir i)) G Hwf HG)
      as [Hwf' HG'].
    + intros t text d Hin. apply (Hl k i file); [now left | exact Ef | exact Hin].
    + apply IH; [exact Hwf' | exact HG' |].
      intros n info f t text d Hin. apply Hl. now right.
  - apply IH; [exact Hwf | exact HG |].
    intros n info f t text d Hin. apply Hl. now right.
Qed.

End EdgeProvenance.

Section EdgesAndAnchors.

Lemma edges_fold_add_node ids G e :
  In e (edges (fold_left add_node ids G)) <-> In e (edges G).
Proof.
  revert G. induction ids as [|i ids IH]; intros G; cbn [fold_left];
    [tauto|].
  rewrite IH. destruct e as [[s t] d]. apply edges_add_node.
Qed.

Lemma last_label_exists (t text : string) (links : list (string * string)) :
  In (t, text) links -> exists l, last_label t links = Some l.
Proof.
  induction links as [|[t0 x] links IH]; [intros []|].
  intros [[= -> ->]|H]; cbn [last_label].
  - destruct (last_label t links); [eauto|].
    rewrite String.eqb_refl. eauto.
  - destruct (IH H) as [l ->]. eauto.
Qed.

(** X10: in the graph [build_knowledge_graph] writes there is an edge from
    [s] to [t] exactly when [s] is a known page whose source file was
    found and has a link that resolves to the known identifier [t]; and
    the label of every edge is the text of such a link. *)
Theorem built_edges_are_the_known_links
  (fs : FileSystem) (root_dir : string) (rows : list PageRecord)
  (s t : string) :
  let known := nodes_info (add_metadata_to_graph init rows) in
  let out := fst (build_knowledge_graph fs root_dir rows) in
  ((exists rel, In (mkEdge s t rel) (gd_edges out))
   <-> (exists info file text,
           In (s, info) known
           /\ source_file fs root_dir info = Some file
           /\ In (t, text)
                 (extract_links_from_html file (info_relative_dir info))
           /\ mem t known = true))
  /\ (forall rel, In (mkEdge s t rel) (gd_edges out) ->
        exists info file,
          In (s, info) known
          /\ source_file fs root_dir info = Some file
          /\ In (t, rel)
                (extract_links_from_html file (info_relative_dir info))).
Proof.
  intros known out.
  pose proof (consistent_add_metadata init rows consistent_init)
    as Hc.
  pose proof (consistent_add_links _ fs root_dir Hc) as (_ & Hwf' & _).
  destruct Hc as (Hnd & Hwf & _).
  set (self := add_metadata_to_graph init rows) in *.
  assert (Hback : forall rel, In (mkEdge s t rel) (gd_edges out) ->
            exists info file,
              In (s, info) known
              /\ source_file fs root_dir info = Some file
              /\ In (t, rel)
                    (extract_links_from_html file (info_relative_dir info))
              /\ mem t known = true).
  { intros rel He. unfold out, build_knowledge_graph in He.
    cbn [fst export_graph gd_edges] in He.
    apply in_map_iff in He as [x [Hx He]]. destruct x as [[s' t'] dd].
    injection Hx as -> -> <-.
    cbn [add_links_to_graph graph] in He. fold self known in He.
    revert He.
    apply (backed_fold_items
             (fun e =>
                exists info file,
                  In (fst (fst e), info) known
                  /\ source_file fs root_dir info = Some file
                  /\ In (snd (fst e),
                         match get "relationship" (snd e) with
                         | Some r => r
                         | None => ""
                         end)
                        (extract_links_from_html file (info_relative_dir info))
                  /\ mem (snd (fst e)) known = true)
             fs root_dir known known (graph self) Hwf).
    - intros e He. exfalso. unfold self in He.
      rewrite graph_add_metadata in He.
      apply edges_fold_add_node in He. destruct He.
    - intros n info file t0 text d Hin Hf Hl Hm Hrel. cbn [fst snd].
      rewrite Hrel. exists info, file. auto. }
  split.
  - split.
    + intros [rel He]. destruct (Hback rel He) as (info & file & H).
      exists info, file, rel. exact H.
    + intros (info & file & text & Hin & Hf & Hl & Hm).
      destruct (last_label_exists _ _ _ Hl) as [l Hlast].
      destruct (add_node_links_last_label fs root_dir known known
                  (graph self) s info file t l Hnd Hin Hf Hm Hlast)
        as [dd [Hd Hrel]].
      exists l. unfold out, build_knowledge_graph.
      cbn [fst export_graph gd_edges].
      apply in_map_iff. exists (s, t, dd). rewrite Hrel. split; [reflexivity|].
      apply edges_edge_data; [exact Hwf' | exact Hd].
  - intros rel He. destruct (Hback rel He) as (info & file & H1 & H2 & H3 & _).
    eauto.
Qed.

End EdgesAndAnchors.

(** ** The metadata extractor *)

Section ExtractorFacts.
Import Scanner Extractor.

Variable str_lower : string -> string.

Lemma meta_step_get (key : string) (md : Metadata) (m : MetaTag) :
  In key ["keywords"; "description"; "module"] ->
  metadata_get key (meta_step str_lower md m)
  = if String.eqb (str_lower (attr_get (meta_name m))) key then attr_get (meta_content m)
    else metadata_get key md.
Proof.
  unfold meta_step. intros Hkey.
  set (n := str_lower (attr_get (meta_name m))).
  destruct Hkey as [<-|[<-|[<-|[]]]];
    destruct (String.eqb_spec n "keywords") as [->|];
    try reflexivity;
    destruct (String.eqb_spec n "description") as [->|];
    try reflexivity;
    destruct (String.eqb_spec n "module") as [->|];
    reflexivity.
Qed.

Lemma meta_step_title (md : Metadata) (m : MetaTag) :
  md_title (meta_step str_lower md m) = md_title md.
Proof.
  unfold meta_step.
  destruct (String.eqb _ "keywords"); [reflexivity|].
  destruct (String.eqb _ "description"); [reflexivity|].
  destruct (String.eqb _ "module"); reflexivity.
Qed.

Lemma fold_meta_no_match (key : string) (metas : list MetaTag) (md : Metadata) :
  In key ["keywords"; "description"; "module"] ->
  (forall m, In m metas -> str_lower (attr_get (meta_name m)) <> key) ->
  metadata_get key (fold_left (meta_step str_lower) metas md)
  = metadata_get key md.
Proof.
  intros Hkey. revert md.
  induction metas as [|m metas IH]; intros md H; cbn [fold_left];
    [reflexivity|].
  rewrite IH by (intros m' Hm'; apply H; now right).
  rewrite meta_step_get by exact Hkey.
  destruct (String.eqb_spec (str_lower (attr_get (meta_name m))) key) as [E|]; [|reflexivity].
  elim (H m); [now left | exact E].
Qed.

Lemma fold_meta_title (metas : list MetaTag) (md : Metadata) :
  md_title (fold_left (meta_step str_lower) metas md) = md_title md.
Proof.
  revert md. induction metas as [|m metas IH]; intros md; cbn [fold_left];
    [reflexivity|].
  now rewrite IH, meta_step_title.
Qed.

Lemma metadata_get_of_doc (key : string) (metas : list MetaTag)
  (title_tag : option (option string)) :
  In key ["keywords"; "description"; "module"] ->
  metadata_get key (get_metadata_from_html str_lower (Doc metas title_tag))
  = metadata_get key (fold_left (meta_step str_lower) metas empty_metadata).
Proof.
  intros Hkey. cbn [get_metadata_from_html].
  destruct title_tag; [|reflexivity].
  destruct Hkey as [<-|[<-|[<-|[]]]]; reflexivity.
Qed.

(** X13: for each of the keys [keywords], [description] and [module], the
    value extracted is the [content] of the last [meta] element whose
    lower-cased [name] is the key (the empty string when that element has
    no [content]). *)
Theorem last_matching_meta_wins
  (key : string) (before after : list MetaTag) (tag : MetaTag)
  (title_tag : option (option string))
  (Hkey : In key ["keywords"; "description"; "module"])
  (Hmatch : str_lower (attr_get (meta_name tag)) = key)
  (Hafter : forall m, In m after -> str_lower (attr_get (meta_name m)) <> key) :
  metadata_get key
    (get_metadata_from_html str_lower
       (Doc (before ++ tag :: after)%list title_tag))
  = attr_get (meta_content tag).
Proof.
  rewrite metadata_get_of_doc by exact Hkey.
  rewrite fold_left_app. cbn [fold_left].
  rewrite fold_meta_no_match by assumption.
  rewrite meta_step_get by exact Hkey.
  rewrite Hmatch. now rewrite String.eqb_refl.
Qed.

(** X14: a key no [meta] element names stays the empty string; the title is
    the string of the first [title] element, empty when there is none or
    it has no single string, and no [meta] element ever sets it; a file
    that cannot be read or parsed gives four empty strings. *)
Theorem metadata_defaults
  (metas : list MetaTag) (title_tag : option (option string)) :
  (forall key,
      In key ["keywords"; "description"; "module"] ->
      (forall m, In m metas -> str_lower (attr_get (meta_name m)) <> key) ->
      metadata_get key
        (get_metadata_from_html str_lower (Doc metas title_tag)) = "")
  /\ metadata_get "title"
       (get_metadata_from_html str_lower (Doc metas title_tag))
     = match title_tag with
       | Some (Some s) => s
       | _ => ""
       end
  /\ (forall key,
         metadata_get key (get_metadata_from_html str_lower DocError) = "").
Proof.
  split; [|split].
  - intros key Hkey Hno.
    rewrite metadata_get_of_doc by exact Hkey.
    rewrite fold_meta_no_match by assumption.
    destruct Hkey as [<-|[<-|[<-|[]]]]; reflexivity.
  - change (metadata_get "title"
              (get_metadata_from_html str_lower (Doc metas title_tag)))
      with (md_title (get_metadata_from_html str_lower (Doc metas title_tag))).
    cbn [get_metadata_from_html].
    destruct title_tag as [[s|]|]; cbn [md_title]; try reflexivity.
    now rewrite fold_meta_title.
  - intros key. cbn [get_metadata_from_html]. unfold metadata_get.
    repeat match goal with |- context [String.eqb ?a ?b] =>
      destruct (String.eqb a b) end; reflexivity.
Qed.

End ExtractorFacts.

Section ExtractorWitnesses.
Import Scanner Extractor.

Lemma last_matching_meta_witness :
  metadata_get "keywords"
    (get_metadata_from_html PyStr.lower
       (Doc ([mkMeta (Some "keywords") (Some "old")]
             ++ mkMeta (Some "KeyWords") (Some "erp, cloud")
             :: [mkMeta (Some "author") (Some "someone")])%list
            (Some (Some "Home"))))
  = attr_get (Some "erp, cloud").
Proof.
  apply (last_matching_meta_wins PyStr.lower "keywords"
           [mkMeta (Some "keywords") (Some "old")]
           [mkMeta (Some "author") (Some "someone")]
           (mkMeta (Some "KeyWords") (Some "erp, cloud"))
           (Some (Some "Home"))).
  - simpl. auto.
  - reflexivity.
  - intros m [<-|[]]. discriminate.
Defined.

Lemma metadata_defaults_witness :
  metadata_get "module"
    (get_metadata_from_html PyStr.lower
       (Doc [mkMeta (Some "Title") (Some "not a title"); mkMeta None None]
            (Some None)))
  = ""
  /\ metadata_get "title"
       (get_metadata_from_html PyStr.lower
          (Doc [mkMeta (Some "Title") (Some "not a title"); mkMeta None None]
               (Some None)))
     = "".
Proof.
  destruct (metadata_defaults PyStr.lower
              [mkMeta (Some "Title") (Some "not a title"); mkMeta None None]
              (Some None)) as (Habsent & Htitle & _).
  split; [|exact Htitle].
  apply Habsent.
  - simpl. auto.
  - intros m [<-|[<-|[]]]; discriminate.
Defined.

End ExtractorWitnesses.

(** ** The scanner and the normalizer together *)

Section ScannerAgreement.
Import Scanner.

Lemma normalize_path_file_name (d f e : string) :
  endswith "/" d = false ->
  f <> "" ->
  (forall c, In c (list_ascii_of_string f) ->
             ~ In c ["."; "/"; "#"; ":"]%char) ->
  (forall c, In c (list_ascii_of_string e) ->
             ~ In c ["."; "/"; "#"; ":"]%char) ->
  PosixPath.splitext (f ++ "." ++ e) = (f, "." ++ e)
  /\ normalize_path d (f ++ "." ++ e) = Some (get_node_id d f).
Proof.
  intros Hd Hf Hfc Hec.
  assert (Hno : forall c, In c ["."; "/"; "#"; ":"]%char ->
                  ~ In c (list_ascii_of_string f)
                  /\ ~ In c (list_ascii_of_string e)).
  { intros c Hc. split; intros Hin; [eapply Hfc | eapply Hec]; eauto. }
  destruct (Hno "."%char) as [Hfd Hed]; [simpl; tauto|].
  destruct (Hno "/"%char) as [Hfs Hes]; [simpl; tauto|].
  destruct (Hno "#"%char) as [Hfh Heh]; [simpl; tauto|].
  destruct (Hno ":"%char) as [Hfk Hek]; [simpl; tauto|].
  assert (Hchars : forall c, c <> "."%char ->
                     ~ In c (list_ascii_of_string f) ->
                     ~ In c (list_ascii_of_string e) ->
                     ~ In c (list_ascii_of_string (f ++ "." ++ e))).
  { intros c Hc H1 H2. rewrite chars_app. simpl. rewrite in_app_iff. simpl.
    intros [H|[H|H]]; [tauto | congruence | tauto]. }
  assert (Hext : PosixPath.splitext (f ++ "." ++ e) = (f, "." ++ e)).
  { change (f ++ "." ++ e) with ("" ++ f ++ "." ++ e) at 1.
    rewrite splitext_name_ext; auto. }
  split; [exact Hext|].
  rewrite normalize_path_clean
    by (apply not_rejected_plain; apply Hchars; auto; discriminate).
  unfold strip_fragment.
  rewrite split_absent by (apply Hchars; auto; discriminate).
  cbn [hd]. unfold strip_extension. rewrite Hext. cbn [fst].
  now apply resolve_plain_name.
Qed.

Variable resolve : string -> list string.
Variable get_metadata_from_html : string -> Metadata.

(** X15: the scanner and the graph builder agree on identifiers: a file
    [name.ext] that the scanner takes for an HTML page gives one record,
    named [name], and a link written [name.ext] in a page of the same
    directory resolves to that record's Page Identifier. *)
Theorem scanned_page_is_link_target
  (root_dir root f e : string)
  (Hhtml : endswith ".html" (lower (f ++ "." ++ e))
           || endswith ".htm" (lower (f ++ "." ++ e)) = true)
  (Hf : f <> "")
  (Hfc : forall c, In c (list_ascii_of_string f) ->
                   ~ In c ["."; "/"; "#"; ":"]%char)
  (Hec : forall c, In c (list_ascii_of_string e) ->
                   ~ In c ["."; "/"; "#"; ":"]%char) :
  exists row,
    scan_file resolve get_metadata_from_html root_dir root (f ++ "." ++ e)
    = [row]
    /\ filename row = f
    /\ relative_dir row
       = get_relative_path resolve root_dir
           (PosixPath.join root [f ++ "." ++ e])
    /\ (endswith "/" (relative_dir row) = false ->
        normalize_path (relative_dir row) (f ++ "." ++ e)
        = Some (get_node_id (relative_dir row) (filename row))).
Proof.
  unfold scan_file. rewrite Hhtml.
  eexists. split; [reflexivity|]. cbn [filename relative_dir].
  destruct (normalize_path_file_name "" f e eq_refl Hf Hfc Hec) as [Hext _].
  rewrite Hext. cbn [fst].
  split; [reflexivity|]. split; [reflexivity|].
  intros Hd. now apply normalize_path_file_name.
Qed.

(** X16: asked for the root directory itself, [get_relative_path] answers with
    a dot, not with the empty string it gives for a file directly under
    the root. *)
Theorem relative_path_of_root_itself (root_dir file_path : string)
  (Hsame : resolve file_path = resolve root_dir) :
  get_relative_path resolve root_dir file_path = ".".
Proof.
  unfold get_relative_path. rewrite Hsame.
  rewrite <- (app_nil_r (resolve root_dir)) at 1.
  now rewrite relative_to_app.
Qed.

End ScannerAgreement.

Section ScannerAgreementWitnesses.
Import Scanner.

Lemma scanned_page_witness :
  exists row,
    scan_file resolve_plain no_metadata "/site" "/site/sub"
      ("Child" ++ "." ++ "HTM")
    = [row]
    /\ filename row = "Child"
    /\ relative_dir row
       = get_relative_path resolve_plain "/site"
           (PosixPath.join "/site/sub" ["Child" ++ "." ++ "HTM"])
    /\ (endswith "/" (relative_dir row) = false ->
        normalize_path (relative_dir row) ("Child" ++ "." ++ "HTM")
        = Some (get_node_id (relative_dir row) (filename row))).
Proof.
  apply (scanned_page_is_link_target resolve_plain no_metadata
           "/site" "/site/sub" "Child" "HTM").
  - reflexivity.
  - discriminate.
  - simpl. intuition (subst; discriminate).
  - simpl. intuition (subst; discriminate).
Defined.

Lemma relative_path_of_root_witness :
  get_relative_path resolve_plain "/site" "/site/" = ".".
Proof.
  apply (relative_path_of_root_itself resolve_plain "/site" "/site/").
  reflexivity.
Defined.

End ScannerAgreementWitnesses.

(** ** The tabular export *)

Section CsvFacts.
Import Scanner.

Lemma escape_inj (s s' : string) : escape s = escape s' -> s = s'.
Proof.
  revert s'. induction s as [|c s IH]; intros [|c' s']; cbn [escape].
  - reflexivity.
  - destruct (Ascii.eqb c' quotechar); discriminate.
  - destruct (Ascii.eqb c quotechar); discriminate.
  - destruct (Ascii.eqb_spec c quotechar) as [->|ne],
             (Ascii.eqb_spec c' quotechar) as [->|ne'].
    + intros [= H]. now rewrite (IH _ H).
    + intros [= <- H]. congruence.
    + intros [= -> H]. congruence.
    + intros [= -> H]. now rewrite (IH _ H).
Qed.

Lemma append_char_inj (a b : string) (c : ascii) :
  a ++ String c "" = b ++ String c "" -> a = b.
Proof.
  revert b. induction a as [|x a IH]; intros [|y b]; cbn [append].
  - reflexivity.
  - intros [= -> H]. now destruct b.
  - intros [= -> H]. now destruct a.
  - intros [= -> H]. now rewrite (IH _ H).
Qed.

Lemma quote_field_text_inj (f f' : string) :
  quote_field f = quote_field f' -> f = f'.
Proof.
  unfold quote_field. intros [= H].
  now apply escape_inj, (append_char_inj _ _ quotechar).
Qed.

Lemma code_points_ascii (s : string) :
  Forall (fun c => (N_of_ascii c < 128)%N) (list_ascii_of_string s) ->
  code_points s = map N_of_ascii (list_ascii_of_string s).
Proof.
  induction s as [|a s IH]; intros H; [reflexivity|].
  cbn [list_ascii_of_string] in H. inversion_clear H as [|? ? Ha Hs].
  cbn [code_points list_ascii_of_string map].
  apply N.ltb_lt in Ha. rewrite Ha. now rewrite IH.
Qed.

Lemma cp1252_replace_ascii (s : string) :
  Forall (fun c => (N_of_ascii c < 128)%N) (list_ascii_of_string s) ->
  cp1252_replace s = map byte_of_ascii (list_ascii_of_string s).
Proof.
  intros H. unfold cp1252_replace. rewrite code_points_ascii by exact H.
  rewrite map_map. apply map_ext_in. intros a Ha.
  rewrite Forall_forall in H. specialize (H a Ha).
  unfold cp1252_char. apply N.ltb_lt in H. rewrite H.
  now rewrite ascii_N_embedding.
Qed.

Lemma escape_ascii (s : string) :
  Forall (fun c => (N_of_ascii c < 128)%N) (list_ascii_of_string s) ->
  Forall (fun c => (N_of_ascii c < 128)%N) (list_ascii_of_string (escape s)).
Proof.
  induction s as [|a s IH]; intros H; [constructor|].
  cbn [list_ascii_of_string] in H. inversion_clear H as [|? ? Ha Hs].
  cbn [escape]. destruct (Ascii.eqb a quotechar);
    cbn [list_ascii_of_string]; repeat constructor; auto.
Qed.

Lemma quote_field_ascii (f : string) :
  Forall (fun c => (N_of_ascii c < 128)%N) (list_ascii_of_string f) ->
  Forall (fun c => (N_of_ascii c < 128)%N)
         (list_ascii_of_string (quote_field f)).
Proof.
  intros H. unfold quote_field. cbn [list_ascii_of_string].
  constructor; [reflexivity|].
  rewrite chars_app. apply Forall_app. split; [now apply escape_ascii|].
  repeat constructor.
Qed.

Lemma map_byte_of_ascii_inj (l l' : list ascii) :
  map byte_of_ascii l = map byte_of_ascii l' -> l = l'.
Proof.
  revert l'. induction l as [|a l IH]; intros [|a' l']; cbn [map];
    try discriminate; [reflexivity|].
  intros [= Ha H]. rewrite (IH _ H). f_equal.
  now rewrite <- (ascii_of_byte_of_ascii a), Ha, ascii_of_byte_of_ascii.
Qed.

(** X17: for field values made of ASCII characters, the bytes that
    reach the export for a field (the value quoted, embedded quotes
    doubled, then encoded as cp1252) are the same for two values only if
    the values are the same, whatever quotes, semicolons or line breaks
    they hold. *)
Theorem ascii_field_bytes_injective (f f' : string)
  (Hf : Forall (fun c => (N_of_ascii c < 128)%N) (list_ascii_of_string f))
  (Hf' : Forall (fun c => (N_of_ascii c < 128)%N) (list_ascii_of_string f'))
  (Hsame : cp1252_replace (quote_field f) = cp1252_replace (quote_field f')) :
  f = f'.
Proof.
  rewrite !cp1252_replace_ascii in Hsame by now apply quote_field_ascii.
  apply map_byte_of_ascii_inj in Hsame.
  apply quote_field_text_inj.
  rewrite <- (string_of_list_ascii_of_string (quote_field f)), Hsame.
  apply string_of_list_ascii_of_string.
Qed.

Lemma ascii_field_bytes_witness : "a;b" = "a;b".
Proof.
  apply (ascii_field_bytes_injective "a;b" "a;b").
  - repeat constructor.
  - repeat constructor.
  - reflexivity.
Defined.

Example cp1252_euro_sign : cp1252_replace "5 €" = [Byte.x35; Byte.x20; Byte.x80].
Proof. reflexivity. Qed.

(** Outside cp1252 the bytes do not tell values apart: both characters
    are written as a question mark. *)
Example replaced_fields_coincide :
  cp1252_replace (quote_field "日") = cp1252_replace (quote_field "本")
  /\ cp1252_replace (quote_field "日") = cp1252_replace (quote_field "?").
Proof. split; reflexivity. Qed.

End CsvFacts.

(** ** Links to the parent directory *)

Section ParentLinks.

Lemma split_app_sep (c : ascii) (a b : string) :
  split c (a ++ String c b) = (split c a ++ split c b)%list.
Proof.
  induction a as [|x a IH]; cbn [append split].
  - now rewrite Ascii.eqb_refl.
  - destruct (Ascii.eqb x c); [now rewrite IH|].
    rewrite IH. destruct (split c a) as [|p ps] eqn:E;
      [now elim (split_nonempty c a) | reflexivity].
Qed.

Lemma join_split (c : ascii) (s : string) :
  join (String c "") (split c s) = s.
Proof.
  unfold join. induction s as [|x s IH]; cbn [split]; [reflexivity|].
  destruct (split c s) as [|p ps] eqn:E; [now elim (split_nonempty c s)|].
  destruct (Ascii.eqb_spec x c) as [->|ne].
  - change (String.concat (String c "") ("" :: p :: ps))
      with (String c (String.concat (String c "") (p :: ps))).
    now rewrite IH.
  - destruct ps as [|q r].
    + cbn [String.concat] in *. now rewrite IH.
    + change (String.concat (String c "") (String x p :: q :: r))
        with (String x (String.concat (String c "") (p :: q :: r))).
      now rewrite IH.
Qed.

Lemma join_app_last (sep : string) (l : list string) (f : string) :
  l <> [] -> join sep (l ++ [f]) = join sep l ++ sep ++ f.
Proof.
  unfold join. induction l as [|a l IH]; [contradiction|]. intros _.
  destruct l as [|b l]; [reflexivity|].
  change (String.concat sep (((a :: b :: l) ++ [f])%list))
    with (a ++ sep ++ String.concat sep ((b :: l) ++ [f])%list).
  rewrite IH by discriminate.
  change (String.concat sep (a :: b :: l))
    with (a ++ sep ++ String.concat sep (b :: l)).
  now rewrite !string_app_assoc.
Qed.

Lemma firstn_all_but_last {A} (l : list A) (x : A) :
  firstn (List.length (l ++ [x]) - 1) (l ++ [x]) = l.
Proof.
  rewrite length_app. cbn [List.length].
  replace (List.length l + 1 - 1)%nat with (List.length l + 0)%nat by lia.
  rewrite firstn_app_2. cbn [firstn]. apply app_nil_r.
Qed.

(** The directory pieces of [get_node_id p x] without the last one, put
    together again with a name, give [get_node_id p name]. *)
Lemma parent_pieces (p x f : string) :
  x <> "" ->
  ~ In "/"%char (list_ascii_of_string x) ->
  join "/"
    (firstn (List.length (split "/"%char (get_node_id p x)) - 1)
            (split "/"%char (get_node_id p x)) ++ [f])
  = get_node_id p f.
Proof.
  intros Hx Hsl. unfold get_node_id.
  destruct (String.eqb_spec p "") as [->|Hp].
  - now rewrite split_absent.
  - change (p ++ "/" ++ x) with (p ++ String "/"%char x).
    rewrite split_app_sep, (split_absent _ x Hsl).
    rewrite firstn_all_but_last.
    rewrite join_app_last by apply split_nonempty.
    now rewrite join_split.
Qed.

(** X3: from a page of the directory [p/x] (or of the top-level directory
    [x], when [p] is empty), a link [../name.ext] resolves to the Page
    Identifier of the page [name] of the directory [p]. *)
Theorem parent_link_resolves_to_node_id (p x f e : string)
  (Hx : x <> "")
  (Hxs : ~ In "/"%char (list_ascii_of_string x))
  (Hf : f <> "")
  (Hfc : forall c, In c (list_ascii_of_string f) ->
                   ~ In c ["."; "/"; "#"; ":"]%char)
  (Hec : forall c, In c (list_ascii_of_string e) ->
                   ~ In c ["."; "/"; "#"; ":"]%char) :
  normalize_path (get_node_id p x) ("../" ++ f ++ "." ++ e)
  = Some (get_node_id p f).
Proof.
  assert (Hno : forall c, In c ["."; "/"; "#"; ":"]%char ->
                  ~ In c (list_ascii_of_string f)
                  /\ ~ In c (list_ascii_of_string e)).
  { intros c Hc. split; intros Hin; [eapply Hfc | eapply Hec]; eauto. }
  destruct (Hno "."%char) as [Hfd Hed]; [simpl; tauto|].
  destruct (Hno "/"%char) as [Hfs Hes]; [simpl; tauto|].
  destruct (Hno "#"%char) as [Hfh Heh]; [simpl; tauto|].
  rewrite normalize_path_clean by reflexivity.
  assert (Hfrag : strip_fragment ("../" ++ f ++ "." ++ e)
                  = "../" ++ f ++ "." ++ e).
  { unfold strip_fragment. rewrite split_absent; [reflexivity|].
    change ("../" ++ f ++ "." ++ e)
      with (String "."%char (String "."%char (String "/"%char (f ++ "." ++ e)))).
    cbn [list_ascii_of_string In]. rewrite chars_app.
    cbn [append list_ascii_of_string]. rewrite in_app_iff. cbn [In].
    intros [H|[H|[H|[H|[H|H]]]]]; try discriminate; tauto. }
  rewrite Hfrag. unfold strip_extension.
  rewrite splitext_name_ext; auto; [|right; now exists ".."].
  cbn [fst]. unfold resolve.
  replace (startswith "../" ("../" ++ f)) with true
    by (unfold startswith; now destruct f).
  rewrite split_ascent, (split_absent _ f Hfs).
  cbn [pop_ascents]. rewrite String.eqb_refl.
  replace (String.eqb f "..") with false.
  - pose proof (split_nonempty "/"%char (get_node_id p x)) as Hne.
    destruct (split "/"%char (get_node_id p x)) as [|s0 rest] eqn:E;
      [contradiction|].
    cbn [List.length Nat.leb]. unfold slice_to_neg.
    cbn [Nat.eqb]. rewrite <- E.
    replace (List.length (s0 :: rest)) with
      (List.length (split "/"%char (get_node_id p x))) by now rewrite E.
    f_equal. now apply parent_pieces.
  - symmetry. apply String.eqb_neq. intros ->. apply Hfd. now left.
Qed.

Lemma parent_link_witness :
  normalize_path (get_node_id "guide" "api") ("../" ++ "index" ++ "." ++ "html")
  = Some (get_node_id "guide" "index").
Proof.
  apply (parent_link_resolves_to_node_id "guide" "api" "index" "html").
  - discriminate.
  - simpl. intuition discriminate.
  - discriminate.
  - simpl. intuition (subst; discriminate).
  - simpl. intuition (subst; discriminate).
Defined.

End ParentLinks.

Section AscentWitness.

Lemma ascent_resolution_witness :
  (1 <= 2)%nat
  /\ normalize_path "a/b/c" "../../x/y.html#s" = Some "a/x/y".
Proof.
  exact (ascent_resolution "a/b/c" "../../x/y.html#s" eq_refl).
Defined.

End AscentWitness.
